(** * The OP-1 finder agent ([src/handler.py]): tools and run controller

    A shallow embedding of the two tools ([browse_website],
    [send_notification]) and of the run controller ([lambda_handler]).

    - A Python [str] is a sequence of Unicode code points: [list N].
    - Everything the program reaches outside itself ([requests], [boto3],
      [bs4], [json], the agent runtime) is an oracle of an environment
      record; a call either returns a value or raises an exception.
    - Side effects (log lines, network calls) are collected in a trace, and
      exceptions are threaded through a small writer/error monad. *)

From Stdlib Require Import String Ascii DecimalString.
From Stdlib Require Import List ZArith NArith Bool Lia.
Import ListNotations.

Set Implicit Arguments.
Set Warnings "-register-all,-abstract-large-number".

(* ================================================================== *)
(** * Python strings *)
(* ================================================================== *)

Module PyStr.

Local Open Scope N_scope.

(** A character is a Unicode code point, a [str] a list of them, so that
    [len] counts characters (not bytes), as Python does. *)
Definition char := N.
Definition str := list char.

(** An ASCII literal of the source, as code points. *)
Definition lit (s : string) : str := map N_of_ascii (list_ascii_of_string s).

Definition SPACE : char := 32.
Definition LF : char := 10.
Definition CR : char := 13.

Definition mem (c : char) (l : list char) : bool := existsb (N.eqb c) l.

(** [str.isspace] for one character: what [str.strip()] removes. *)
Definition isspace (c : char) : bool :=
  mem c [9; 10; 11; 12; 13; 28; 29; 30; 31; 32; 133; 160; 5760;
         8192; 8193; 8194; 8195; 8196; 8197; 8198; 8199; 8200; 8201; 8202;
         8232; 8233; 8239; 8287; 12288].

(** The line boundaries of [str.splitlines]. *)
Definition is_linebreak (c : char) : bool :=
  mem c [10; 11; 12; 13; 28; 29; 30; 133; 8232; 8233].

(** [s.splitlines()]: split at line boundaries, boundaries dropped; CR LF
    counts as one boundary; no empty last line after a final boundary.
    [after_cr] says that the previous character was a CR (a following LF
    belongs to it), [cur] is the current line, reversed. *)
Fixpoint splitlines_from (after_cr : bool) (cur : str) (s : str) : list str :=
  match s with
  | [] => match cur with [] => [] | _ => [rev cur] end
  | c :: rest =>
      if after_cr && (c =? LF) then splitlines_from false cur rest
      else if is_linebreak c then rev cur :: splitlines_from (c =? CR) [] rest
      else splitlines_from false (c :: cur) rest
  end.

Definition splitlines (s : str) : list str := splitlines_from false [] s.

(** [s.lstrip()], [s.rstrip()], [s.strip()]. *)
Fixpoint lstrip (s : str) : str :=
  match s with
  | c :: rest => if isspace c then lstrip rest else s
  | [] => []
  end.

Fixpoint rstrip (s : str) : str :=
  match s with
  | [] => []
  | c :: rest =>
      match rstrip rest with
      | [] => if isspace c then [] else [c]
      | r => c :: r
      end
  end.

Definition strip (s : str) : str := rstrip (lstrip s).

(** Puts [c] in front of the first piece of a split. *)
Definition cons_head (c : char) (l : list str) : list str :=
  match l with
  | [] => [[c]]
  | p :: ps => (c :: p) :: ps
  end.

(** [s.split("  ")]: split at each occurrence of two spaces, scanning from
    the left; occurrences do not overlap; the empty string gives [['']]. *)
Fixpoint split_2sp (s : str) : list str :=
  match s with
  | [] => [[]]
  | c :: rest =>
      match rest with
      | d :: rest' =>
          if (c =? SPACE) && (d =? SPACE) then [] :: split_2sp rest'
          else cons_head c (split_2sp rest)
      | [] => [[c]]
      end
  end.

(** [sep.join(l)]. *)
Fixpoint join (sep : str) (l : list str) : str :=
  match l with
  | [] => []
  | x :: rest =>
      match rest with
      | [] => x
      | _ => x ++ sep ++ join sep rest
      end
  end.

(** Truthiness of a string: non-empty. *)
Definition truthy (s : str) : bool :=
  match s with [] => false | _ => true end.

(** [str(n)] for an integer. *)
Definition str_of_Z (z : Z) : str := lit (NilZero.string_of_int (Z.to_int z)).

(** ** Predicates on the output text *)

(** Two adjacent U+0020 spaces somewhere in [s]. *)
Fixpoint double_space (s : str) : bool :=
  match s with
  | c :: rest =>
      match rest with
      | d :: _ => ((c =? SPACE) && (d =? SPACE)) || double_space rest
      | [] => false
      end
  | [] => false
  end.

(** Two adjacent whitespace characters somewhere in [s]. *)
Fixpoint whitespace_run (s : str) : bool :=
  match s with
  | c :: rest =>
      match rest with
      | d :: _ => (isspace c && isspace d) || whitespace_run rest
      | [] => false
      end
  | [] => false
  end.

Definition has_linebreak (s : str) : bool := existsb is_linebreak s.

(** [startswith]. *)
Fixpoint startswith (p s : str) : bool :=
  match p, s with
  | [], _ => true
  | a :: p', b :: s' => (a =? b) && startswith p' s'
  | _ :: _, [] => false
  end.

End PyStr.

Import PyStr.

(* ================================================================== *)
(** * Text cleaning (handler.py, lines 45-52) *)
(* ================================================================== *)

(** [[
    lines = (line.strip() for line in text.splitlines())
    chunks = (phrase.strip() for line in lines for phrase in line.split("  "))
    text = ' '.join(chunk for chunk in chunks if chunk)
    ]] *)
Definition clean_text (text : str) : str :=
  let lines := map strip (splitlines text) in
  let chunks := flat_map (fun line => map strip (split_2sp line)) lines in
  join [SPACE] (filter truthy chunks).

Definition MAX_LEN : nat := 8000.


(* ================================================================== *)
(** * Exceptions, effects and the trace *)
(* ================================================================== *)

(** The classes of exception the program tells apart or raises itself. All
    of them derive from [Exception]; the first five are
    [requests.exceptions.RequestException] and subclasses of it. Signals of
    the interpreter that derive from [BaseException] only
    ([KeyboardInterrupt], [SystemExit]) are not exceptions of this model. *)
Inductive ExnClass :=
| RequestException | HTTPError | ConnectionError | Timeout | InvalidURL
| KeyError | TypeError | ValueError
| ParserRejectedMarkup          (* bs4 *)
| OtherException.               (* botocore, model runtime, ... *)

(** An exception object: its class and [str(e)]. *)
Record exn := Exn { exn_class : ExnClass; exn_str : str }.

(** [isinstance(e, requests.exceptions.RequestException)] *)
Definition is_RequestException (e : exn) : bool :=
  match exn_class e with
  | RequestException | HTTPError | ConnectionError | Timeout | InvalidURL => true
  | _ => false
  end.

(** [isinstance(e, Exception)], and the bare [except:]. *)
Definition is_Exception (e : exn) : bool := true.

Inductive outcome (A : Type) : Type :=
| Returns (a : A)
| Raises (e : exn).
Arguments Raises {A} e.

Inductive level := INFO | WARNING | ERROR.

(** JSON values, as [json.loads] builds them and [json.dumps] takes them. *)
Inductive json :=
| JNull
| JBool (b : bool)
| JInt (z : Z)
| JStr (s : str)
| JList (l : list json)
| JDict (d : list (str * json)).

(** What the program reads of a [requests.Response]. *)
Record Response := {
  status_code : Z;
  reason : str;
  resp_url : str;
  content : list Byte.byte
}.

(** What the program does to the outside world, in order. [AgentSession]
    is the whole session of the agent, with the tool calls the model
    decides to make in it. *)
Inductive event :=
| Log (lvl : level) (msg : str)
| HttpGet (url : str) (headers : list (str * str)) (timeout : Z)
| Boto3Client (service : str)
| GetSecretValue (SecretId : str)
| HttpPost (url : str) (body : json) (timeout : Z)
| AgentSession.

(** The network calls of the two tools. *)
Definition is_network_call (ev : event) : bool :=
  match ev with
  | HttpGet _ _ _ | GetSecretValue _ | HttpPost _ _ _ => true
  | _ => false
  end.

Definition is_post (ev : event) : bool :=
  match ev with HttpPost _ _ _ => true | _ => false end.

(** A computation: the events it performed and how it ended. *)
Definition M (A : Type) : Type := (list event * outcome A)%type.

Definition ret {A} (a : A) : M A := ([], Returns a).

Definition bind {A B} (m : M A) (k : A -> M B) : M B :=
  match m with
  | (tr, Returns a) => let (tr', o) := k a in (tr ++ tr', o)
  | (tr, Raises e) => (tr, Raises e)
  end.

(** A call that is visible in the trace, with the outcome the environment
    gives it; and one that is not. *)
Definition call {A} (ev : event) (o : outcome A) : M A := ([ev], o).
Definition pure_call {A} (o : outcome A) : M A := ([], o).

Definition log (lvl : level) (msg : str) : M unit := ([Log lvl msg], Returns tt).

(** [try: body  except C as e: handler(e)] where [catches] is
    [isinstance(e, C)]. *)
Definition try_except {A} (body : M A) (catches : exn -> bool)
           (handler : exn -> M A) : M A :=
  match body with
  | (tr, Raises e) =>
      if catches e then let (tr', o) := handler e in (tr ++ tr', o)
      else (tr, Raises e)
  | _ => body
  end.

Declare Scope py_scope.
Delimit Scope py_scope with py.
Notation "x <- m ;; k" := (bind m (fun x => k))
  (at level 61, m at next level, right associativity) : py_scope.
Notation "m ;; k" := (bind m (fun _ => k))
  (at level 61, right associativity) : py_scope.
Open Scope py_scope.

Definition trace_of {A} (m : M A) : list event := fst m.
Definition result_of {A} (m : M A) : outcome A := snd m.

(** [response.raise_for_status()] of [requests]: an [HTTPError] for a 4xx
    or 5xx status, nothing otherwise. *)
Definition raise_for_status (r : Response) : outcome unit :=
  if ((400 <=? status_code r) && (status_code r <? 500))%Z then
    Raises (Exn HTTPError (str_of_Z (status_code r) ++ lit " Client Error: "
                           ++ reason r ++ lit " for url: " ++ resp_url r))
  else if ((500 <=? status_code r) && (status_code r <? 600))%Z then
    Raises (Exn HTTPError (str_of_Z (status_code r) ++ lit " Server Error: "
                           ++ reason r ++ lit " for url: " ++ resp_url r))
  else Returns tt.

(* ================================================================== *)
(** * The parsed document *)
(* ================================================================== *)

(** A [bs4] tree. [ident] is the identity of the Python object: the loop
    over [soup([...])] holds references to tags of the tree it mutates.
    [Comment] stands for every string class [get_text] skips. *)
Inductive PageElement :=
| Tag (ident : nat) (name : str) (contents : list PageElement)
| NavigableString (text : str)
| Comment (text : str).

Fixpoint str_eqb (a b : str) : bool :=
  match a, b with
  | [], [] => true
  | x :: a', y :: b' => N.eqb x y && str_eqb a' b'
  | _, _ => false
  end.

Definition name_in (n : str) (names : list str) : bool := existsb (str_eqb n) names.

(** The tags named in [names] among [e] and its descendants, in document
    order. *)
Fixpoint find_in (names : list str) (e : PageElement) : list nat :=
  match e with
  | Tag i n cs =>
      (if name_in n names then [i] else []) ++ flat_map (find_in names) cs
  | _ => []
  end.

(** [soup(names)], that is [soup.find_all(names)]: descendants only. *)
Definition find_all (names : list str) (soup : PageElement) : list nat :=
  match soup with
  | Tag _ _ cs => flat_map (find_in names) cs
  | _ => []
  end.

Definition has_ident (i : nat) (e : PageElement) : bool :=
  match e with
  | Tag j _ _ => Nat.eqb i j
  | _ => false
  end.

(** [tag.decompose()] seen from the tree that holds the tag [i]: the tag
    and all below it are taken out; nothing happens when the tag is no
    longer in the tree. *)
Fixpoint decompose (i : nat) (e : PageElement) : PageElement :=
  match e with
  | Tag j n cs =>
      Tag j n (flat_map (fun c => if has_ident i c then [] else [decompose i c]) cs)
  | _ => e
  end.

(** [[
    for script in soup(["script", "style"]):
        script.decompose()
    ]] *)
Definition SCRIPT_STYLE : list str := [lit "script"; lit "style"].

Definition remove_scripts (soup : PageElement) : PageElement :=
  fold_left (fun s script => decompose script s) (find_all SCRIPT_STYLE soup) soup.

(** [soup.get_text()]: the strings of the tree, in document order,
    concatenated. *)
Fixpoint all_strings (e : PageElement) : list str :=
  match e with
  | Tag _ _ cs => flat_map all_strings cs
  | NavigableString s => [s]
  | Comment _ => []
  end.

Definition get_text (soup : PageElement) : str := List.concat (all_strings soup).

(** The identities of all tags of a tree. *)
Fixpoint tag_idents (e : PageElement) : list nat :=
  match e with
  | Tag i _ cs => i :: flat_map tag_idents cs
  | _ => []
  end.

(** ** The text outside script and style elements, by the spec's words *)

(** The strings of [e] that are not inside an element named in [names]. *)
Fixpoint strings_outside (names : list str) (e : PageElement) : list str :=
  match e with
  | Tag _ n cs =>
      if name_in n names then [] else flat_map (strings_outside names) cs
  | NavigableString s => [s]
  | Comment _ => []
  end.

Definition visible_text (soup : PageElement) : str :=
  match soup with
  | Tag _ _ cs => List.concat (flat_map (strings_outside SCRIPT_STYLE) cs)
  | NavigableString s => s
  | Comment _ => []
  end.

(* ================================================================== *)
(** * Tool 1: browse_website (handler.py, lines 15-60) *)
(* ================================================================== *)

(** What [browse_website] reaches outside the program. *)
Record BrowseEnv := {
  (** [requests.get(url, headers=..., timeout=...)] *)
  requests_get : str -> list (str * str) -> Z -> outcome Response;
  (** [BeautifulSoup(content, 'html.parser')] *)
  BeautifulSoup : list Byte.byte -> outcome PageElement
}.

Definition USER_AGENT : str :=
  lit "Mozilla/5.0 (Windows NT 10.0; Win64; x64) AppleWebKit/537.36 (KHTML, like Gecko) Chrome/91.0.4472.124 Safari/537.36".

(** The marker U+274C that opens every failure string. *)
Definition CROSS : str := [10060%N].

Definition browse_error_msg (url : str) (e : exn) : str :=
  CROSS ++ lit " Error browsing " ++ url ++ lit ": " ++ exn_str e.

(** Lines 49-52: [if len(text) > 8000: text = text[:8000]; log.info(...)]. *)
Definition truncate (text : str) : M str :=
  if (MAX_LEN <? length text)%nat then
    log INFO ([128221%N] ++ lit " Truncated content to 8000 characters") ;;
    ret (firstn MAX_LEN text)
  else ret text.

Definition browse_website (env : BrowseEnv) (url : str) : M str :=
  log INFO ([127760%N] ++ lit " Browsing website: " ++ url) ;;
  let headers := [(lit "User-Agent", USER_AGENT)] in
  try_except
    (response <- call (HttpGet url headers 15) (requests_get env url headers 15) ;;
     pure_call (raise_for_status response) ;;
     log INFO ([9989%N] ++ lit " HTTP " ++ str_of_Z (status_code response)
               ++ lit ": Retrieved "
               ++ str_of_Z (Z.of_nat (length (content response))) ++ lit " bytes") ;;
     soup <- pure_call (BeautifulSoup env (content response)) ;;
     let soup := remove_scripts soup in
     let text := get_text soup in
     let text := clean_text text in
     text <- truncate text ;;
     log INFO ([127919%N] ++ lit " Extracted " ++ str_of_Z (Z.of_nat (length text))
               ++ lit " characters of clean text") ;;
     ret text)
    is_RequestException
    (fun e =>
       let error_msg := browse_error_msg url e in
       log ERROR error_msg ;;
       ret error_msg).

(* ================================================================== *)
(** * Tool 2: send_notification (handler.py, lines 62-103) *)
(* ================================================================== *)

(** What [send_notification] reaches outside the program. *)
Record NotifyEnv := {
  (** [boto3.client(service)] *)
  boto3_client : str -> outcome unit;
  (** [os.environ.get('SECRETS_ARN')] *)
  SECRETS_ARN : option str;
  (** [get_secret_value(SecretId=...)]: the ['SecretString'] entry of the
      answer, when it has one *)
  get_secret_value : str -> outcome (option str);
  (** [json.loads] *)
  json_loads : str -> outcome json;
  (** [requests.post(url, json=..., timeout=...)] *)
  requests_post : str -> json -> Z -> outcome Response;
  (** [repr] of a list or dict, and the wording of the interpreter's
      [TypeError] for subscripting a value that is not a dict *)
  repr_container : json -> str;
  subscript_type_error : json -> str
}.

(** [d[key]] on the answer of [get_secret_value]. *)
Definition secret_getitem (SecretString : option str) : outcome str :=
  match SecretString with
  | Some s => Returns s
  | None => Raises (Exn KeyError (lit "'SecretString'"))
  end.

(** [v[key]] for a string key. *)
Definition getitem (env : NotifyEnv) (v : json) (key : str) : outcome json :=
  match v with
  | JDict d =>
      match find (fun kv => str_eqb (fst kv) key) d with
      | Some kv => Returns (snd kv)
      | None => Raises (Exn KeyError (lit "'" ++ key ++ lit "'"))
      end
  | _ => Raises (Exn TypeError (subscript_type_error env v))
  end.

(** [f"{v}"]: [str(v)]. *)
Definition format_value (env : NotifyEnv) (v : json) : str :=
  match v with
  | JStr s => s
  | JInt z => str_of_Z z
  | JNull => lit "None"
  | JBool true => lit "True"
  | JBool false => lit "False"
  | _ => repr_container env v
  end.

Definition NO_ARN_MSG : str :=
  CROSS ++ lit " No SECRETS_ARN environment variable found".

Definition SENT_MSG : str := lit "Notification sent successfully".

Definition notify_error_msg (e : exn) : str :=
  CROSS ++ lit " Error sending notification: " ++ exn_str e.

Definition telegram_url_of (env : NotifyEnv) (token : json) : str :=
  lit "https://api.telegram.org/bot" ++ format_value env token ++ lit "/sendMessage".

Definition telegram_payload (chat_id : json) (message : str) : json :=
  JDict [(lit "chat_id", chat_id);
         (lit "text", JStr message);
         (lit "parse_mode", JStr (lit "Markdown"));
         (lit "disable_web_page_preview", JBool false)].

Definition send_notification (env : NotifyEnv) (message : str) : M str :=
  log INFO ([128241%N] ++ lit " Sending notification...") ;;
  try_except
    (call (Boto3Client (lit "secretsmanager")) (boto3_client env (lit "secretsmanager")) ;;
     match SECRETS_ARN env with
     | None => ret NO_ARN_MSG
     | Some secrets_arn =>
         if negb (truthy secrets_arn) then ret NO_ARN_MSG
         else
           secret <- call (GetSecretValue secrets_arn)
                          (get_secret_value env secrets_arn) ;;
           secret_string <- pure_call (secret_getitem secret) ;;
           credentials <- pure_call (json_loads env secret_string) ;;
           token <- pure_call (getitem env credentials (lit "TELEGRAM_TOKEN")) ;;
           let telegram_url := telegram_url_of env token in
           chat_id <- pure_call (getitem env credentials (lit "TELEGRAM_CHAT_ID")) ;;
           let payload := telegram_payload chat_id message in
           response <- call (HttpPost telegram_url payload 10)
                            (requests_post env telegram_url payload 10) ;;
           pure_call (raise_for_status response) ;;
           log INFO ([9989%N] ++ lit " Notification sent successfully") ;;
           ret SENT_MSG
     end)
    is_Exception
    (fun e =>
       let error_msg := notify_error_msg e in
       log ERROR error_msg ;;
       ret error_msg).

(* ================================================================== *)
(** * The run controller: lambda_handler (handler.py, lines 141-194) *)
(* ================================================================== *)

(** What the controller reaches outside the program. The instructions, the
    tool list and the kick-off message are constants of the source, so the
    whole agent session is one outcome: [str(result)] of what the agent
    returned, or the exception it raised. *)
Record World := {
  (** [BedrockModel(model_id=..., streaming=False)] *)
  BedrockModel_new : outcome unit;
  (** [Agent(model=..., system_prompt=..., tools=[...])] *)
  Agent_new : outcome unit;
  (** [agent("Check eBay Kleinanzeigen ...")] *)
  agent_call : outcome str;
  (** [json.dumps] *)
  json_dumps : json -> str;
  notify_env : NotifyEnv
}.

Record Payload := { statusCode : Z; body : str }.

Definition COMPLETED_MSG : str :=
  [9989%N] ++ lit " OP-1 Search Completed Successfully" ++ [LF; LF]
  ++ lit "Search finished without errors. Check logs for details about any matches found.".

Definition FAILED_MSG (e : exn) : str :=
  [128680%N] ++ lit " OP-1 Finder Error: " ++ exn_str e.

Definition success_body (w : World) (result : str) : str :=
  json_dumps w (JDict [(lit "message", JStr (lit "OP-1 search completed successfully"));
                       (lit "result", JStr result)]).

Definition error_body (w : World) (e : exn) : str :=
  json_dumps w (JDict [(lit "error", JStr (exn_str e))]).

Definition lambda_handler (w : World) (event context : json) : M Payload :=
  log INFO ([127929%N] ++ lit " Starting OP-1 finder agent...") ;;
  try_except
    (pure_call (BedrockModel_new w) ;;
     pure_call (Agent_new w) ;;
     log INFO ([129302%N] ++ lit " Invoking agent to search for OP-1 deals...") ;;
     result <- call AgentSession (agent_call w) ;;
     log INFO ([9989%N] ++ lit " Agent completed successfully") ;;
     log INFO ([128202%N] ++ lit " Result: " ++ result) ;;
     try_except
       (send_notification (notify_env w) COMPLETED_MSG ;; ret tt)
       is_Exception
       (fun notification_error =>
          log WARNING (lit "Failed to send success notification: "
                       ++ exn_str notification_error)) ;;
     ret {| statusCode := 200; body := success_body w result |})
    is_Exception
    (fun e =>
       let error_msg := CROSS ++ lit " Error running OP-1 finder agent: " ++ exn_str e in
       log ERROR error_msg ;;
       try_except
         (send_notification (notify_env w) (FAILED_MSG e) ;; ret tt)
         is_Exception
         (fun _ => ret tt) ;;
       ret {| statusCode := 500; body := error_body w e |}).

(** The outcome of the orchestrator part of a run: building the model
    client and the agent, then the session. *)
Definition orchestrator (w : World) : outcome str :=
  match BedrockModel_new w with
  | Raises e => Raises e
  | Returns _ =>
      match Agent_new w with
      | Raises e => Raises e
      | Returns _ => agent_call w
      end
  end.

(** How many times a trace enters [send_notification]: the first thing the
    tool does is to write its log line. *)
Definition is_sending_line (ev : event) : bool :=
  match ev with
  | Log INFO msg => str_eqb msg ([128241%N] ++ lit " Sending notification...")
  | _ => false
  end.

Definition attempts (tr : list event) : nat := length (filter is_sending_line tr).

(** The same world with another environment for the notification tool. *)
Definition with_notify_env (w : World) (env : NotifyEnv) : World :=
  {| BedrockModel_new := BedrockModel_new w;
     Agent_new := Agent_new w;
     agent_call := agent_call w;
     json_dumps := json_dumps w;
     notify_env := env |}.

(* ================================================================== *)
(** * Auxiliary definitions for the statements *)
(* ================================================================== *)

(** The value [truncate] returns. *)
Definition truncated (text : str) : str :=
  if (MAX_LEN <? length text)%nat then firstn MAX_LEN text else text.

Definition TRUNCATION_NOTE : event :=
  Log INFO ([128221%N] ++ lit " Truncated content to 8000 characters").

(** The text the success branch of [browse_website] computes from a parsed
    document. *)
Definition extracted_text (soup : PageElement) : str :=
  truncated (clean_text (get_text (remove_scripts soup))).

Definition BROWSE_HEADERS : list (str * str) := [(lit "User-Agent", USER_AGENT)].

(** [not secrets_arn] is false. *)
Definition arn_configured (env : NotifyEnv) : bool :=
  match SECRETS_ARN env with
  | Some arn => truthy arn
  | None => false
  end.

Definition is_2xx (r : Response) : bool :=
  ((200 <=? status_code r) && (status_code r <? 300))%Z.

Definition is_error_status (r : Response) : bool :=
  ((400 <=? status_code r) && (status_code r <? 600))%Z.

Definition not_linebreak (c : char) : Prop := is_linebreak c = false.

(** First and last character are whitespace. *)
Definition head_space (s : str) : bool :=
  match s with
  | c :: _ => isspace c
  | [] => false
  end.

Fixpoint last_space (s : str) : bool :=
  match s with
  | [] => false
  | c :: rest =>
      match rest with
      | [] => isspace c
      | _ => last_space rest
      end
  end.

(** What every chunk that reaches [join] looks like. *)
Definition good_chunk (s : str) : Prop :=
  s <> [] /\ double_space s = false /\ head_space s = false /\ last_space s = false.

(** All elements whose identity is in [ids] taken out of [e] at once. *)
Definition in_ids (ids : list nat) (e : PageElement) : bool :=
  existsb (fun i => has_ident i e) ids.

Fixpoint remove_all (ids : list nat) (e : PageElement) : PageElement :=
  match e with
  | Tag j n cs =>
      Tag j n (flat_map (fun c => if in_ids ids c then [] else [remove_all ids c]) cs)
  | _ => e
  end.

(** In [e], the tags whose identity is in [ids] are exactly those named in
    [names]. *)
Fixpoint consistent (ids : list nat) (names : list str) (e : PageElement) : bool :=
  match e with
  | Tag j n cs =>
      Bool.eqb (in_ids ids e) (name_in n names)
      && forallb (consistent ids names) cs
  | _ => true
  end.

(** Among the identities [idents], the set [ids] holds exactly those of
    [found]. *)
Definition agrees (ids idents found : list nat) : Prop :=
  (forall i, In i ids -> In i idents -> In i found)
  /\ (forall i, In i found -> In i ids).

(** ** Whitespace runs collapsed, by the spec's words *)

(** What stands in the output for a whitespace run between two visible
    characters: a single space when the run holds a line boundary or two
    adjacent spaces, the run as it is otherwise. *)
Definition separator (run : str) : str :=
  match run with
  | [] => []
  | _ => if has_linebreak run || double_space run then [SPACE] else run
  end.

(** One pass over the text, by the spec's words. [pending] is the
    whitespace run read since the last visible character; [started] says
    that a visible character was read. A visible character is written
    after the separator of the run before it (nothing before the first
    one); the run at the end of the text is dropped. *)
Fixpoint collapse_runs (pending : str) (started : bool) (s : str) : str :=
  match s with
  | [] => []
  | c :: rest =>
      if isspace c then collapse_runs (pending ++ [c]) started rest
      else (if started then separator pending else [])
           ++ c :: collapse_runs [] true rest
  end.

Definition collapse_whitespace (text : str) : str := collapse_runs [] false text.

(** Some character of [s] is not whitespace. *)
Definition has_visible (s : str) : bool := existsb (fun c => negb (isspace c)) s.

(** Two cleaned texts put together: with one space between them when
    neither is empty. *)
Definition glue (a b : str) : str :=
  match a, b with
  | [], _ => b
  | _, [] => a
  | _, _ => a ++ [SPACE] ++ b
  end.

(** ** How a run of send_notification can fail *)

(** The credentials resolve to [token] and [chat_id]: the client is
    built, the secret reference is set, the secret is fetched and parsed,
    and both keys are found. *)
Definition resolves (env : NotifyEnv) (token chat_id : json) : Prop :=
  exists arn secret_string credentials,
    boto3_client env (lit "secretsmanager") = Returns tt
    /\ SECRETS_ARN env = Some arn
    /\ truthy arn = true
    /\ get_secret_value env arn = Returns (Some secret_string)
    /\ json_loads env secret_string = Returns credentials
    /\ getitem env credentials (lit "TELEGRAM_TOKEN") = Returns token
    /\ getitem env credentials (lit "TELEGRAM_CHAT_ID") = Returns chat_id.

(** The exception [e] is what the first failing step of
    [send_notification env message] raises. *)
Inductive notification_failure (env : NotifyEnv) (message : str) : exn -> Prop :=
| fail_client e :
    boto3_client env (lit "secretsmanager") = Raises e ->
    notification_failure env message e
| fail_secret arn e :
    boto3_client env (lit "secretsmanager") = Returns tt ->
    SECRETS_ARN env = Some arn -> truthy arn = true ->
    get_secret_value env arn = Raises e ->
    notification_failure env message e
| fail_secret_string arn :
    boto3_client env (lit "secretsmanager") = Returns tt ->
    SECRETS_ARN env = Some arn -> truthy arn = true ->
    get_secret_value env arn = Returns None ->
    notification_failure env message (Exn KeyError (lit "'SecretString'"))
| fail_json arn secret_string e :
    boto3_client env (lit "secretsmanager") = Returns tt ->
    SECRETS_ARN env = Some arn -> truthy arn = true ->
    get_secret_value env arn = Returns (Some secret_string) ->
    json_loads env secret_string = Raises e ->
    notification_failure env message e
| fail_token arn secret_string credentials e :
    boto3_client env (lit "secretsmanager") = Returns tt ->
    SECRETS_ARN env = Some arn -> truthy arn = true ->
    get_secret_value env arn = Returns (Some secret_string) ->
    json_loads env secret_string = Returns credentials ->
    getitem env credentials (lit "TELEGRAM_TOKEN") = Raises e ->
    notification_failure env message e
| fail_chat_id arn secret_string credentials token e :
    boto3_client env (lit "secretsmanager") = Returns tt ->
    SECRETS_ARN env = Some arn -> truthy arn = true ->
    get_secret_value env arn = Returns (Some secret_string) ->
    json_loads env secret_string = Returns credentials ->
    getitem env credentials (lit "TELEGRAM_TOKEN") = Returns token ->
    getitem env credentials (lit "TELEGRAM_CHAT_ID") = Raises e ->
    notification_failure env message e
| fail_post token chat_id e :
    resolves env token chat_id ->
    requests_post env (telegram_url_of env token)
      (telegram_payload chat_id message) 10 = Raises e ->
    notification_failure env message e
| fail_status token chat_id response e :
    resolves env token chat_id ->
    requests_post env (telegram_url_of env token)
      (telegram_payload chat_id message) 10 = Returns response ->
    raise_for_status response = Raises e ->
    notification_failure env message e.

(* ================================================================== *)
(** * Sample environments *)
(* ================================================================== *)

Module Samples.

Definition url0 : str := lit "https://www.ebay-kleinanzeigen.de/s-musik/berlin".

Definition response_with (status : Z) (why : string) : Response :=
  {| status_code := status; reason := lit why; resp_url := url0; content := [] |}.

(** A reachable site whose page parses to [soup]. *)
Definition env_page (soup : PageElement) : BrowseEnv :=
  {| requests_get := fun _ _ _ => Returns (response_with 200 "OK");
     BeautifulSoup := fun _ => Returns soup |}.

(** An unreachable host. *)
Definition connection_error : exn := Exn ConnectionError (lit "Max retries exceeded").
Definition env_unreachable : BrowseEnv :=
  {| requests_get := fun _ _ _ => Raises connection_error;
     BeautifulSoup := fun _ => Returns (Tag 0 (lit "[document]") []) |}.

(** A page answered with 404. *)
Definition env_404 : BrowseEnv :=
  {| requests_get := fun _ _ _ => Returns (response_with 404 "Not Found");
     BeautifulSoup := fun _ => Returns (Tag 0 (lit "[document]") []) |}.

(** A page the HTML parser refuses. *)
Definition parser_error : exn :=
  Exn ParserRejectedMarkup (lit "expected name token").
Definition env_parser_rejects : BrowseEnv :=
  {| requests_get := fun _ _ _ => Returns (response_with 200 "OK");
     BeautifulSoup := fun _ => Raises parser_error |}.

Definition document (cs : list PageElement) : PageElement := Tag 0 (lit "[document]") cs.

(** [<html><script>var x;</script><p>OP-1   600</p><!--ad--><style>p{}</style></html>] *)
Definition soup_scripts : PageElement :=
  document
    [Tag 1 (lit "html")
       [Tag 2 (lit "script") [NavigableString (lit "var x;")];
        Tag 3 (lit "p") [NavigableString (lit "OP-1   600")];
        Comment (lit "ad");
        Tag 4 (lit "style") [NavigableString (lit "p{}")]]].

(** [<p>a\t\tb</p>]: two tabs between the words. *)
Definition text_tabs : str := lit "a" ++ [9%N; 9%N] ++ lit "b".
Definition soup_tabs : PageElement :=
  document [Tag 1 (lit "p") [NavigableString text_tabs]].

(** A page of 8001 letters. *)
Definition soup_long : PageElement :=
  document [Tag 1 (lit "p") [NavigableString (repeat 97%N 8001)]].

Definition long_url : str := lit "http://" ++ repeat 97%N 8000.

Definition credentials : json :=
  JDict [(lit "TELEGRAM_TOKEN", JStr (lit "123:abc"));
         (lit "TELEGRAM_CHAT_ID", JInt 42)].

(** A notification environment where all goes well up to the POST, which
    is answered with [status]. *)
Definition env_post (arn : option str) (status : Z) : NotifyEnv :=
  {| boto3_client := fun _ => Returns tt;
     SECRETS_ARN := arn;
     get_secret_value := fun _ => Returns (Some (lit "{...}"));
     json_loads := fun _ => Returns credentials;
     requests_post := fun _ _ _ => Returns (response_with status "");
     repr_container := fun _ => [];
     subscript_type_error := fun _ => lit "object is not subscriptable" |}.

Definition arn0 : str := lit "arn:aws:secretsmanager:eu-central-1:0:secret:op1".

Definition world (session : outcome str) (env : NotifyEnv) : World :=
  {| BedrockModel_new := Returns tt;
     Agent_new := Returns tt;
     agent_call := session;
     json_dumps := fun _ => lit "{...}";
     notify_env := env |}.

Definition runtime_error : exn := Exn OtherException (lit "model runtime failure").

End Samples.

(* ================================================================== *)
(** * Auxiliary definitions for further properties *)
(* ================================================================== *)

(** The characters of a text that are not whitespace, in order. *)
Definition visible_chars (s : str) : str := filter (fun c => negb (isspace c)) s.

(** The size of a list of pieces, each counted with one separator. *)
Definition weight (l : list str) : nat := list_sum (map (fun x => S (length x)) l).

Definition is_get (ev : event) : bool :=
  match ev with HttpGet _ _ _ => true | _ => false end.

Definition is_error_log (ev : event) : bool :=
  match ev with Log ERROR _ => true | _ => false end.

Definition is_agent_session (ev : event) : bool :=
  match ev with AgentSession => true | _ => false end.

(** The key [k] of a dict, as [d[k]] looks it up. *)
Definition dict_find (d : list (str * json)) (k : str) : option (str * json) :=
  find (fun kv => str_eqb (fst kv) k) d.

Module MoreSamples.

(** A notification environment whose secret parses to [creds]. *)
Definition env_credentials (creds : json) : NotifyEnv :=
  {| boto3_client := fun _ => Returns tt;
     SECRETS_ARN := Some Samples.arn0;
     get_secret_value := fun _ => Returns (Some (lit "{...}"));
     json_loads := fun _ => Returns creds;
     requests_post := fun _ _ _ => Returns (Samples.response_with 200 "OK");
     repr_container := fun _ => [];
     subscript_type_error := fun _ => lit "object is not subscriptable" |}.

(** A secret that is binary: the answer has no ['SecretString']. *)
Definition env_binary_secret : NotifyEnv :=
  {| boto3_client := fun _ => Returns tt;
     SECRETS_ARN := Some Samples.arn0;
     get_secret_value := fun _ => Returns None;
     json_loads := fun _ => Returns Samples.credentials;
     requests_post := fun _ _ _ => Returns (Samples.response_with 200 "OK");
     repr_container := fun _ => [];
     subscript_type_error := fun _ => lit "object is not subscriptable" |}.

(** The messaging endpoint does not answer in time. *)
Definition timeout_error : exn := Exn Timeout (lit "Read timed out. (read timeout=10)").
Definition env_post_timeout : NotifyEnv :=
  {| boto3_client := fun _ => Returns tt;
     SECRETS_ARN := Some Samples.arn0;
     get_secret_value := fun _ => Returns (Some (lit "{...}"));
     json_loads := fun _ => Returns Samples.credentials;
     requests_post := fun _ _ _ => Raises timeout_error;
     repr_container := fun _ => [];
     subscript_type_error := fun _ => lit "object is not subscriptable" |}.

Definition only_token : json := JDict [(lit "TELEGRAM_TOKEN", JStr (lit "123:abc"))].

(** [<p> \t </p>]: a page of whitespace only. *)
Definition blank_text : str := [32%N; 9%N; 10%N; 160%N; 32%N; 32%N; 13%N; 10%N].

(** [<p>  OP-1 \n  600  </p>] *)
Definition soup_padded : PageElement :=
  Samples.document
    [Tag 1 (lit "p") [NavigableString (lit "  OP-1 " ++ [LF] ++ lit "  600  ")]].

End MoreSamples.

(* ================================================================== *)
(** * Facts about the string operations *)
(* ================================================================== *)

Example splitlines_crlf :
  splitlines (lit "a" ++ [CR; LF] ++ lit "b" ++ [LF; LF] ++ lit "c" ++ [LF])
  = [lit "a"; lit "b"; []; lit "c"].
Proof. reflexivity. Qed.

Example splitlines_empty : splitlines [] = [] /\ splitlines [LF] = [[]].
Proof. split; reflexivity. Qed.

Example split_2sp_runs :
  split_2sp (lit "a   b") = [lit "a"; lit " b"]
  /\ split_2sp (lit "a    b") = [lit "a"; []; lit "b"]
  /\ split_2sp (lit "  ") = [[]; []]
  /\ split_2sp [] = [[]].
Proof. repeat split; reflexivity. Qed.

Example clean_text_lines :
  clean_text (lit "  Hello   world " ++ [LF; LF] ++ lit " OP-1  600 " ++ [LF])
  = lit "Hello world OP-1 600".
Proof. reflexivity. Qed.

Arguments isspace : simpl never.
Arguments is_linebreak : simpl never.

Section CharInvariant.

(** A property of characters that holds of all characters of a text holds
    of all characters of what the string operations make of it. *)
Variable P : char -> Prop.

Lemma lstrip_Forall s : Forall P s -> Forall P (lstrip s).
Proof.
  induction 1 as [|c s Hc Hs IH]; simpl; [constructor|].
  destruct (isspace c); auto.
Qed.

Lemma rstrip_Forall s : Forall P s -> Forall P (rstrip s).
Proof.
  induction 1 as [|c s Hc Hs IH]; simpl; [constructor|].
  destruct (rstrip s) as [|d r].
  - destruct (isspace c); auto.
  - auto.
Qed.

Lemma strip_Forall s : Forall P s -> Forall P (strip s).
Proof. intros H. apply rstrip_Forall, lstrip_Forall, H. Qed.

Lemma cons_head_Forall c l :
  P c -> Forall (Forall P) l -> Forall (Forall P) (cons_head c l).
Proof.
  intros Hc Hl. destruct Hl as [|p ps Hp Hps]; simpl; repeat constructor; auto.
Qed.

Lemma split_2sp_Forall s : Forall P s -> Forall (Forall P) (split_2sp s).
Proof.
  enough (H : (Forall P s -> Forall (Forall P) (split_2sp s))
              /\ forall c, Forall P (c :: s) -> Forall (Forall P) (split_2sp (c :: s)))
    by apply H.
  induction s as [|d r [IH1 IH2]].
  - split; [intros _; simpl; repeat constructor|].
    intros c Hc. simpl. constructor; [exact Hc | constructor].
  - split; [apply IH2|].
    intros c Hc. inversion Hc as [|? ? Pc Hdr]; subst.
    change (split_2sp (c :: d :: r))
      with (if (c =? SPACE)%N && (d =? SPACE)%N then [] :: split_2sp r
            else cons_head c (split_2sp (d :: r))).
    destruct ((c =? SPACE)%N && (d =? SPACE)%N).
    + constructor; [constructor|]. apply IH1. now inversion Hdr.
    + apply cons_head_Forall; auto.
Qed.

Lemma join_Forall sep l :
  Forall P sep -> Forall (Forall P) l -> Forall P (join sep l).
Proof.
  intros Hsep. induction 1 as [|x l Hx Hl IH]; simpl; [constructor|].
  destruct l; auto.
  apply Forall_app; split; auto. apply Forall_app; split; auto.
Qed.

Lemma clean_text_Forall text :
  P SPACE -> Forall (Forall P) (splitlines text) -> Forall P (clean_text text).
Proof.
  intros Hsp Hl. unfold clean_text.
  apply join_Forall; [repeat constructor; auto|].
  apply Forall_forall. intros x Hx. apply filter_In in Hx. destruct Hx as [Hx _].
  apply in_flat_map in Hx. destruct Hx as [line [Hline Hx]].
  apply in_map_iff in Hx. destruct Hx as [piece [<- Hpiece]].
  apply in_map_iff in Hline. destruct Hline as [raw [<- Hraw]].
  apply strip_Forall.
  assert (Hall : Forall (Forall P) (split_2sp (strip raw))).
  { apply split_2sp_Forall, strip_Forall. rewrite Forall_forall in Hl. auto. }
  rewrite Forall_forall in Hall. auto.
Qed.

End CharInvariant.

(** ** No line boundary survives [splitlines] *)

Lemma splitlines_from_no_linebreak s : forall b cur,
  Forall not_linebreak cur ->
  Forall (Forall not_linebreak) (splitlines_from b cur s).
Proof.
  induction s as [|c s IH]; intros b cur Hcur; cbn [splitlines_from].
  - destruct cur as [|a cur']; [constructor|].
    constructor; [|constructor]. apply Forall_rev. exact Hcur.
  - destruct (b && (c =? LF)%N); [auto|].
    destruct (is_linebreak c) eqn:Hc.
    + constructor; [now apply Forall_rev | apply IH; constructor].
    + apply IH. constructor; assumption.
Qed.

Lemma clean_text_no_linebreak text : has_linebreak (clean_text text) = false.
Proof.
  assert (H : Forall not_linebreak (clean_text text)).
  { apply clean_text_Forall; [reflexivity|].
    apply splitlines_from_no_linebreak. constructor. }
  unfold has_linebreak. induction H as [|c s Hc Hs IH]; simpl; [reflexivity|].
  rewrite Hc, IH. reflexivity.
Qed.

Lemma has_linebreak_firstn n s : has_linebreak s = false -> has_linebreak (firstn n s) = false.
Proof.
  unfold has_linebreak. revert n. induction s as [|c s IH]; intros [|n] H; simpl; auto.
  simpl in H. apply orb_false_iff in H. destruct H as [Hc Hs].
  rewrite Hc. simpl. auto.
Qed.

(** ** No two adjacent spaces survive the split at double spaces *)

Lemma eqb_space_isspace c : (c =? SPACE)%N = true -> isspace c = true.
Proof. intros H. apply N.eqb_eq in H. subst. reflexivity. Qed.

Lemma not_isspace_not_space c : isspace c = false -> (c =? SPACE)%N = false.
Proof.
  intros H. destruct (c =? SPACE)%N eqn:E; auto.
  apply eqb_space_isspace in E. congruence.
Qed.

Lemma double_space_eq c d r :
  double_space (c :: d :: r)
  = ((c =? SPACE)%N && (d =? SPACE)%N) || double_space (d :: r).
Proof. reflexivity. Qed.

Lemma double_space_tail c s : double_space (c :: s) = false -> double_space s = false.
Proof.
  destruct s as [|d r]; [reflexivity|]. rewrite double_space_eq.
  intros H. apply orb_false_iff in H. tauto.
Qed.

Lemma double_space_cons c s :
  double_space s = false ->
  isspace c = false \/ head_space s = false ->
  double_space (c :: s) = false.
Proof.
  destruct s as [|d r]; [reflexivity|]. intros Hs H.
  rewrite double_space_eq, Hs, orb_false_r.
  destruct H as [H|H]; cbn [head_space] in *;
    rewrite (not_isspace_not_space _ H); [reflexivity | apply andb_false_r].
Qed.

Lemma double_space_firstn n s : double_space s = false -> double_space (firstn n s) = false.
Proof.
  revert n. induction s as [|c s IH]; intros [|n] H; try reflexivity.
  cbn [firstn]. destruct s as [|d r]; [destruct n; reflexivity|].
  rewrite double_space_eq in H. apply orb_false_iff in H. destruct H as [Hcd Hs].
  destruct n as [|n]; [reflexivity|].
  specialize (IH (S n) Hs). cbn [firstn] in IH |- *.
  rewrite double_space_eq, Hcd. exact IH.
Qed.

Lemma last_space_cons c d r : last_space (c :: d :: r) = last_space (d :: r).
Proof. reflexivity. Qed.

Lemma last_space_app a b : b <> [] -> last_space (a ++ b) = last_space b.
Proof.
  intros Hb. induction a as [|c a IH]; [reflexivity|].
  destruct a as [|d a'].
  - destruct b as [|e b']; [congruence | reflexivity].
  - change ((c :: d :: a') ++ b) with (c :: d :: (a' ++ b)).
    rewrite last_space_cons. exact IH.
Qed.

Lemma double_space_app a b :
  double_space a = false -> double_space b = false ->
  last_space a = false \/ head_space b = false ->
  double_space (a ++ b) = false.
Proof.
  induction a as [|c a IH]; intros Ha Hb H; [exact Hb|].
  destruct a as [|d a'].
  - apply double_space_cons; [exact Hb | exact H].
  - change ((c :: d :: a') ++ b) with (c :: d :: (a' ++ b)).
    rewrite double_space_eq in Ha |- *.
    apply orb_false_iff in Ha. destruct Ha as [Hcd Ha].
    rewrite Hcd. apply IH; auto.
Qed.

Lemma lstrip_head s : head_space (lstrip s) = false.
Proof.
  induction s as [|c s IH]; [reflexivity|]. cbn [lstrip].
  destruct (isspace c) eqn:E; [exact IH|]. exact E.
Qed.

Lemma lstrip_double_space s : double_space s = false -> double_space (lstrip s) = false.
Proof.
  induction s as [|c s IH]; intros H; [reflexivity|]. cbn [lstrip].
  destruct (isspace c); [|exact H].
  apply IH. eapply double_space_tail, H.
Qed.

Lemma rstrip_cons s d r : rstrip s = d :: r -> exists s', s = d :: s'.
Proof.
  destruct s as [|c s]; cbn [rstrip]; [discriminate|].
  destruct (rstrip s); [destruct (isspace c)|]; intros H; inversion H; eauto.
Qed.

Lemma rstrip_head s : head_space s = false -> head_space (rstrip s) = false.
Proof.
  destruct s as [|c s]; cbn [rstrip head_space]; [reflexivity|]. intros H.
  destruct (rstrip s); [rewrite H|]; cbn [head_space]; auto.
Qed.

Lemma rstrip_last s : last_space (rstrip s) = false.
Proof.
  induction s as [|c s IH]; [reflexivity|]. cbn [rstrip].
  destruct (rstrip s) as [|d r].
  - destruct (isspace c) eqn:E; [reflexivity | exact E].
  - rewrite last_space_cons. exact IH.
Qed.

Lemma rstrip_double_space s : double_space s = false -> double_space (rstrip s) = false.
Proof.
  induction s as [|c s IH]; intros H; [reflexivity|]. cbn [rstrip].
  destruct (rstrip s) as [|d r] eqn:E.
  - destruct (isspace c); reflexivity.
  - destruct (rstrip_cons _ E) as [s' ->].
    rewrite double_space_eq in H |- *.
    apply orb_false_iff in H. destruct H as [Hcd Hs].
    rewrite Hcd. apply IH, Hs.
Qed.

Lemma strip_good s : double_space s = false -> strip s <> [] -> good_chunk (strip s).
Proof.
  intros H Hne. unfold strip in *. repeat split.
  - exact Hne.
  - apply rstrip_double_space, lstrip_double_space, H.
  - apply rstrip_head, lstrip_head.
  - apply rstrip_last.
Qed.

Lemma split_2sp_head s :
  exists p ps, split_2sp s = p :: ps
               /\ (p = [] \/ exists c r p', s = c :: r /\ p = c :: p').
Proof.
  destruct s as [|c [|d r]].
  - exists [], []. auto.
  - exists [c], []. split; [reflexivity|]. right. exists c, [], []. auto.
  - change (split_2sp (c :: d :: r))
      with (if (c =? SPACE)%N && (d =? SPACE)%N then [] :: split_2sp r
            else cons_head c (split_2sp (d :: r))).
    destruct ((c =? SPACE)%N && (d =? SPACE)%N).
    + exists [], (split_2sp r). auto.
    + destruct (split_2sp (d :: r)) as [|p ps]; cbn [cons_head].
      * exists [c], []. split; [reflexivity|]. right. exists c, (d :: r), []. auto.
      * exists (c :: p), ps. split; [reflexivity|]. right. exists c, (d :: r), p. auto.
Qed.

Lemma split_2sp_double_space s :
  Forall (fun p => double_space p = false) (split_2sp s).
Proof.
  enough (H : Forall (fun p => double_space p = false) (split_2sp s)
              /\ forall c, Forall (fun p => double_space p = false) (split_2sp (c :: s)))
    by apply H.
  induction s as [|d r [IH1 IH2]].
  - split; [|intros c]; repeat constructor.
  - split; [apply IH2|]. intros c.
    change (split_2sp (c :: d :: r))
      with (if (c =? SPACE)%N && (d =? SPACE)%N then [] :: split_2sp r
            else cons_head c (split_2sp (d :: r))).
    destruct ((c =? SPACE)%N && (d =? SPACE)%N) eqn:Hcd.
    + constructor; [reflexivity | exact IH1].
    + specialize (IH2 d).
      destruct (split_2sp_head (d :: r)) as [p [ps [E Hp]]].
      rewrite E in IH2 |- *. cbn [cons_head].
      inversion IH2 as [|? ? Hp0 Hps]; subst.
      constructor; [|exact Hps].
      destruct Hp as [-> | [c' [r' [p' [Hs ->]]]]]; [reflexivity|].
      inversion Hs; subst c' r'.
      rewrite double_space_eq, Hcd. exact Hp0.
Qed.

Lemma join_good l : Forall good_chunk l -> l <> [] -> good_chunk (join [SPACE] l).
Proof.
  induction 1 as [|x l Hx Hl IH]; intros Hne; [congruence|].
  cbn [join]. destruct l as [|y l']; [exact Hx|].
  assert (Hj : good_chunk (join [SPACE] (y :: l'))) by (apply IH; discriminate).
  destruct Hx as [Hx1 [Hx2 [Hx3 Hx4]]]. destruct Hj as [Hj1 [Hj2 [Hj3 Hj4]]].
  set (j := join [SPACE] (y :: l')) in *.
  change ([SPACE] ++ j) with (SPACE :: j).
  repeat split.
  - destruct x; [congruence | discriminate].
  - apply double_space_app; auto.
    apply double_space_cons; auto.
  - destruct x; [congruence | exact Hx3].
  - rewrite last_space_app by discriminate.
    destruct j as [|e j']; [congruence|]. rewrite last_space_cons. exact Hj4.
Qed.

Lemma chunks_good text :
  Forall good_chunk
    (filter truthy
       (flat_map (fun line => map strip (split_2sp line)) (map strip (splitlines text)))).
Proof.
  apply Forall_forall. intros x Hx. apply filter_In in Hx. destruct Hx as [Hx Ht].
  apply in_flat_map in Hx. destruct Hx as [line [_ Hx]].
  apply in_map_iff in Hx. destruct Hx as [piece [<- Hpiece]].
  apply strip_good.
  - pose proof (split_2sp_double_space line) as H.
    rewrite Forall_forall in H. auto.
  - destruct (strip piece); [discriminate Ht | discriminate].
Qed.

Lemma clean_text_no_double_space text : double_space (clean_text text) = false.
Proof.
  unfold clean_text. pose proof (chunks_good text) as H.
  destruct (filter truthy _) as [|x l] eqn:E; [reflexivity|].
  apply join_good in H; [|discriminate]. apply H.
Qed.

(** ** Truncation *)

Lemma truncated_length text : (length (truncated text) <= MAX_LEN)%nat.
Proof.
  unfold truncated. destruct (MAX_LEN <? length text)%nat eqn:E.
  - rewrite length_firstn. apply Nat.le_min_l.
  - apply Nat.ltb_ge in E. exact E.
Qed.

Lemma truncated_long text :
  (MAX_LEN < length text)%nat ->
  truncated text = firstn MAX_LEN text /\ length (truncated text) = MAX_LEN.
Proof.
  intros H. unfold truncated. apply Nat.ltb_lt in H as E. rewrite E.
  split; [reflexivity|]. rewrite length_firstn. apply Nat.min_l. lia.
Qed.

Lemma truncated_short text : (length text <= MAX_LEN)%nat -> truncated text = text.
Proof. intros H. unfold truncated. apply Nat.ltb_ge in H. rewrite H. reflexivity. Qed.

Lemma truncate_result text : result_of (truncate text) = Returns (truncated text).
Proof.
  unfold truncate, truncated. destruct (MAX_LEN <? length text)%nat; reflexivity.
Qed.

Lemma truncate_trace text :
  trace_of (truncate text)
  = if (MAX_LEN <? length text)%nat then [TRUNCATION_NOTE] else [].
Proof. unfold truncate. destruct (MAX_LEN <? length text)%nat; reflexivity. Qed.

(* ================================================================== *)
(** * Facts about the effect monad *)
(* ================================================================== *)

Lemma result_bind {A B} (m : M A) (k : A -> M B) :
  result_of (bind m k)
  = match result_of m with
    | Returns a => result_of (k a)
    | Raises e => Raises e
    end.
Proof. destruct m as [tr [a|e]]; simpl; [destruct (k a)|]; reflexivity. Qed.

Lemma trace_bind {A B} (m : M A) (k : A -> M B) :
  trace_of (bind m k)
  = trace_of m ++ match result_of m with
                  | Returns a => trace_of (k a)
                  | Raises _ => []
                  end.
Proof.
  destruct m as [tr [a|e]]; simpl; [destruct (k a); reflexivity|].
  symmetry. apply app_nil_r.
Qed.

Lemma result_try {A} (body : M A) catches handler :
  result_of (try_except body catches handler)
  = match result_of body with
    | Returns a => Returns a
    | Raises e => if catches e then result_of (handler e) else Raises e
    end.
Proof.
  destruct body as [tr [a|e]]; simpl; [reflexivity|].
  destruct (catches e); [destruct (handler e)|]; reflexivity.
Qed.

Lemma trace_try {A} (body : M A) catches handler :
  trace_of (try_except body catches handler)
  = trace_of body ++ match result_of body with
                     | Returns _ => []
                     | Raises e => if catches e then trace_of (handler e) else []
                     end.
Proof.
  destruct body as [tr [a|e]]; simpl; [symmetry; apply app_nil_r|].
  destruct (catches e); [destruct (handler e); reflexivity|].
  symmetry. apply app_nil_r.
Qed.

Ltac step_result :=
  repeat (rewrite ?result_bind, ?result_try;
          cbn [result_of snd call pure_call log ret]).

Ltac step_trace :=
  repeat (rewrite ?trace_bind, ?trace_try, ?result_bind, ?result_try;
          cbn [trace_of result_of fst snd call pure_call log ret]).

Lemma raise_for_status_class r e :
  raise_for_status r = Raises e -> is_RequestException e = true.
Proof.
  unfold raise_for_status.
  destruct ((400 <=? status_code r) && (status_code r <? 500))%Z;
    [intros H; inversion H; reflexivity|].
  destruct ((500 <=? status_code r) && (status_code r <? 600))%Z;
    [intros H; inversion H; reflexivity | discriminate].
Qed.

Lemma raise_for_status_ok r :
  raise_for_status r = Returns tt <-> is_error_status r = false.
Proof.
  unfold raise_for_status, is_error_status.
  destruct (400 <=? status_code r)%Z eqn:E1, (status_code r <? 500)%Z eqn:E2,
           (500 <=? status_code r)%Z eqn:E3, (status_code r <? 600)%Z eqn:E4;
    cbn [andb]; split; intros H; try reflexivity; try discriminate; lia.
Qed.

Lemma is_2xx_not_error r : is_2xx r = true -> is_error_status r = false.
Proof.
  unfold is_2xx, is_error_status. intros H.
  apply andb_true_iff in H. destruct H as [_ H].
  apply Z.ltb_lt in H.
  destruct (400 <=? status_code r)%Z eqn:E; [|reflexivity].
  apply Z.leb_le in E. lia.
Qed.

(* ================================================================== *)
(** * browse_website: how a call ends *)
(* ================================================================== *)

(** The result of [browse_website], case by case on what the environment
    answers. *)
Lemma browse_website_result env url :
  result_of (browse_website env url)
  = match requests_get env url BROWSE_HEADERS 15 with
    | Raises e =>
        if is_RequestException e then Returns (browse_error_msg url e) else Raises e
    | Returns response =>
        match raise_for_status response with
        | Raises e => Returns (browse_error_msg url e)
        | Returns _ =>
            match BeautifulSoup env (content response) with
            | Raises e =>
                if is_RequestException e then Returns (browse_error_msg url e)
                else Raises e
            | Returns soup => Returns (extracted_text soup)
            end
        end
    end.
Proof.
  unfold browse_website. cbv zeta. fold BROWSE_HEADERS. step_result.
  destruct (requests_get env url BROWSE_HEADERS 15) as [response|e].
  2: { destruct (is_RequestException e); reflexivity. }
  step_result.
  destruct (raise_for_status response) as [[]|e] eqn:Hs.
  2: { rewrite (raise_for_status_class _ Hs). reflexivity. }
  step_result.
  destruct (BeautifulSoup env (content response)) as [soup|e].
  2: { destruct (is_RequestException e); reflexivity. }
  step_result. rewrite truncate_result. reflexivity.
Qed.

(* ================================================================== *)
(** * The document tree: removing script and style elements *)
(* ================================================================== *)

(** Induction on a tree whose children satisfy the property. *)
Lemma PageElement_tree_ind (P : PageElement -> Prop) :
  (forall i n cs, Forall P cs -> P (Tag i n cs)) ->
  (forall s, P (NavigableString s)) ->
  (forall s, P (Comment s)) ->
  forall e, P e.
Proof.
  intros HTag HStr HCom. fix IH 1. intros [i n cs|s|s].
  - apply HTag. induction cs as [|c cs IHcs]; constructor.
    + apply IH.
    + exact IHcs.
  - apply HStr.
  - apply HCom.
Qed.

Lemma NoDup_app_disjoint {A} (l1 l2 : list A) :
  NoDup (l1 ++ l2) -> forall a, In a l1 -> In a l2 -> False.
Proof.
  induction l1 as [|x l1 IH]; intros H a H1 H2; [destruct H1|].
  simpl in H. apply NoDup_cons_iff in H. destruct H as [Hx Hnd].
  destruct H1 as [->|H1].
  - apply Hx, in_or_app. right. exact H2.
  - eapply IH; eauto.
Qed.

Lemma in_ids_In ids j n cs : in_ids ids (Tag j n cs) = true <-> In j ids.
Proof.
  unfold in_ids. rewrite existsb_exists. cbn [has_ident]. split.
  - intros [i [Hi E]]. apply Nat.eqb_eq in E. subst. exact Hi.
  - intros H. exists j. split; [exact H | apply Nat.eqb_refl].
Qed.

Lemma in_ids_string ids s : in_ids ids (NavigableString s) = false.
Proof. induction ids; [reflexivity | assumption]. Qed.

Lemma in_ids_comment ids s : in_ids ids (Comment s) = false.
Proof. induction ids; [reflexivity | assumption]. Qed.

Lemma in_ids_decompose ids i c : in_ids ids (decompose i c) = in_ids ids c.
Proof. destruct c; reflexivity. Qed.

Lemma in_ids_cons i ids c : in_ids (i :: ids) c = has_ident i c || in_ids ids c.
Proof. reflexivity. Qed.

Lemma remove_all_cons i ids e :
  remove_all (i :: ids) e = remove_all ids (decompose i e).
Proof.
  induction e as [j n cs IH|s|s] using PageElement_tree_ind; try reflexivity.
  cbn [remove_all decompose]. f_equal.
  induction IH as [|c cs Hc Hcs IHcs]; [reflexivity|].
  cbn [flat_map]. rewrite flat_map_app, <- IHcs. f_equal.
  rewrite in_ids_cons. destruct (has_ident i c); [reflexivity|].
  cbn [orb flat_map]. rewrite in_ids_decompose, app_nil_r, Hc. reflexivity.
Qed.

Lemma remove_all_nil e : remove_all [] e = e.
Proof.
  induction e as [j n cs IH|s|s] using PageElement_tree_ind; try reflexivity.
  cbn [remove_all]. f_equal.
  induction IH as [|c cs Hc Hcs IHcs]; [reflexivity|].
  cbn [flat_map]. change (in_ids [] c) with false. cbn iota.
  rewrite Hc. cbn [app]. f_equal. exact IHcs.
Qed.

(** The loop over the tags found does what removing them at once does. *)
Lemma decompose_loop ids : forall e,
  fold_left (fun s script => decompose script s) ids e = remove_all ids e.
Proof.
  induction ids as [|i ids IH]; intros e; cbn [fold_left].
  - symmetry. apply remove_all_nil.
  - rewrite IH. symmetry. apply remove_all_cons.
Qed.

Lemma find_in_idents names e i : In i (find_in names e) -> In i (tag_idents e).
Proof.
  revert i. induction e as [j n cs IH|s|s] using PageElement_tree_ind;
    intros i H; try destruct H.
  cbn [find_in tag_idents] in *. apply in_app_or in H. destruct H as [H|H].
  - destruct (name_in n names); [|destruct H].
    destruct H as [->|[]]. left. reflexivity.
  - right. apply in_flat_map in H. destruct H as [c [Hc Hi]].
    apply in_flat_map. exists c. split; [exact Hc|].
    rewrite Forall_forall in IH. apply IH; assumption.
Qed.

Lemma find_in_forest_idents names cs i :
  In i (flat_map (find_in names) cs) -> In i (flat_map tag_idents cs).
Proof.
  intros H. apply in_flat_map in H. destruct H as [c [Hc Hi]].
  apply in_flat_map. exists c. split; [exact Hc | eapply find_in_idents, Hi].
Qed.

Section Consistency.

Variable names : list str.

(** When identities are distinct, a set of identities that agrees with
    [find_in] on the tags of a tree marks exactly the tags named. *)
Lemma consistent_forest cs :
  Forall (fun e => forall ids, NoDup (tag_idents e) ->
                     agrees ids (tag_idents e) (find_in names e) ->
                     consistent ids names e = true) cs ->
  forall ids, NoDup (flat_map tag_idents cs) ->
    agrees ids (flat_map tag_idents cs) (flat_map (find_in names) cs) ->
    forallb (consistent ids names) cs = true.
Proof.
  induction 1 as [|c cs Hc Hcs IH]; intros ids Hnd [Hsub Hsup]; [reflexivity|].
  cbn [flat_map forallb] in *. apply andb_true_iff. split.
  - apply Hc; [eapply NoDup_app_remove_r, Hnd|]. split.
    + intros i Hi Hin.
      destruct (in_app_or _ _ _ (Hsub i Hi (in_or_app _ _ _ (or_introl Hin)))) as [H|H];
        [exact H|].
      exfalso. eapply NoDup_app_disjoint; [exact Hnd | exact Hin |].
      eapply find_in_forest_idents, H.
    + intros i Hi. apply Hsup, in_or_app. left. exact Hi.
  - apply IH; [eapply NoDup_app_remove_l, Hnd|]. split.
    + intros i Hi Hin.
      destruct (in_app_or _ _ _ (Hsub i Hi (in_or_app _ _ _ (or_intror Hin)))) as [H|H];
        [|exact H].
      exfalso. eapply NoDup_app_disjoint; [exact Hnd | | exact Hin].
      eapply find_in_idents, H.
    + intros i Hi. apply Hsup, in_or_app. right. exact Hi.
Qed.

Lemma consistent_tree e : forall ids,
  NoDup (tag_idents e) ->
  agrees ids (tag_idents e) (find_in names e) ->
  consistent ids names e = true.
Proof.
  induction e as [j n cs IH|s|s] using PageElement_tree_ind;
    intros ids Hnd [Hsub Hsup]; try reflexivity.
  cbn [consistent tag_idents find_in] in *.
  apply NoDup_cons_iff in Hnd. destruct Hnd as [Hj Hnd].
  apply andb_true_iff. split.
  - apply eqb_true_iff. destruct (name_in n names) eqn:Hn.
    + apply in_ids_In, Hsup. left. reflexivity.
    + destruct (in_ids ids (Tag j n cs)) eqn:E; [|reflexivity].
      apply in_ids_In in E. exfalso. apply Hj.
      eapply find_in_forest_idents. apply (Hsub j E). left. reflexivity.
  - apply consistent_forest; [exact IH | exact Hnd |]. split.
    + intros i Hi Hin. specialize (Hsub i Hi (or_intror Hin)).
      apply in_app_or in Hsub. destruct Hsub as [H|H]; [|exact H].
      destruct (name_in n names); [|destruct H].
      destruct H as [<-|[]]. contradiction.
    + intros i Hi. apply Hsup, in_or_app. right. exact Hi.
Qed.

(** Where the marking is consistent, the strings left after the removal
    are the strings outside the elements named. *)
Lemma strings_after_removal ids e :
  consistent ids names e = true ->
  flat_map all_strings (if in_ids ids e then [] else [remove_all ids e])
  = strings_outside names e.
Proof.
  induction e as [j n cs IH|s|s] using PageElement_tree_ind; intros Hc.
  2: { rewrite in_ids_string. reflexivity. }
  2: { rewrite in_ids_comment. reflexivity. }
  cbn [consistent] in Hc. apply andb_true_iff in Hc. destruct Hc as [Hroot Hcs].
  apply eqb_prop in Hroot. cbn [strings_outside]. rewrite <- Hroot.
  destruct (in_ids ids (Tag j n cs)); [reflexivity|].
  cbn [flat_map remove_all all_strings]. rewrite app_nil_r.
  clear Hroot. induction IH as [|c cs Hc Hcs' IHcs]; [reflexivity|].
  cbn [forallb] in Hcs. apply andb_true_iff in Hcs. destruct Hcs as [H1 H2].
  cbn [flat_map]. rewrite flat_map_app, IHcs by exact H2.
  rewrite Hc by exact H1. reflexivity.
Qed.

End Consistency.

(** The text of the document after the loop is the text outside script
    and style elements. *)
Lemma get_text_remove_scripts soup :
  NoDup (tag_idents soup) ->
  get_text (remove_scripts soup) = visible_text soup.
Proof.
  intros Hnd. unfold remove_scripts, get_text. rewrite decompose_loop.
  destruct soup as [j n cs|s|s]; cbn [find_all remove_all all_strings visible_text].
  - f_equal. cbn [tag_idents] in Hnd. apply NoDup_cons_iff in Hnd.
    destruct Hnd as [_ Hnd].
    assert (Hc : forallb (consistent (flat_map (find_in SCRIPT_STYLE) cs) SCRIPT_STYLE) cs
                 = true).
    { apply consistent_forest; [|exact Hnd|split; auto].
      apply Forall_forall. intros e _ ids. apply consistent_tree. }
    revert Hc. generalize (flat_map (find_in SCRIPT_STYLE) cs) as ids. intros ids.
    induction cs as [|c cs IH]; intros Hc; [reflexivity|].
    cbn [forallb] in Hc. apply andb_true_iff in Hc. destruct Hc as [H1 H2].
    cbn [flat_map] in *. apply NoDup_app_remove_l in Hnd as Hnd'.
    rewrite flat_map_app, (IH Hnd' H2).
    rewrite (strings_after_removal _ _ _ H1). reflexivity.
  - simpl. apply app_nil_r.
  - reflexivity.
Qed.

(* ================================================================== *)
(** * The cleaning, run by run *)
(* ================================================================== *)

Lemma linebreak_isspace c : is_linebreak c = true -> isspace c = true.
Proof.
  unfold is_linebreak, mem. cbn [existsb]. intros H.
  repeat (apply orb_prop in H; destruct H as [H|H]);
    try discriminate H; apply N.eqb_eq in H; subst; reflexivity.
Qed.

Lemma has_linebreak_Forall s : has_linebreak s = false -> Forall not_linebreak s.
Proof.
  unfold has_linebreak. induction s as [|c s IH]; cbn [existsb]; intros H;
    [constructor|].
  apply orb_false_iff in H. destruct H as [Hc Hs]. constructor; auto.
Qed.


(** ** The pass by the spec's words *)

Lemma collapse_runs_not_started s : forall pending,
  collapse_runs pending false s = collapse_whitespace s.
Proof.
  unfold collapse_whitespace.
  induction s as [|c s IH]; intros pending; [reflexivity|].
  cbn [collapse_runs]. destruct (isspace c); [|reflexivity].
  rewrite (IH (pending ++ [c])), (IH ([] ++ [c])). reflexivity.
Qed.

Lemma collapse_whitespace_lead c s :
  isspace c = true -> collapse_whitespace (c :: s) = collapse_whitespace s.
Proof.
  intros H. unfold collapse_whitespace at 1. cbn [collapse_runs]. rewrite H.
  apply collapse_runs_not_started.
Qed.

Lemma collapse_whitespace_visible c s :
  isspace c = false ->
  collapse_whitespace (c :: s) = c :: collapse_runs [] true s.
Proof. intros H. unfold collapse_whitespace. cbn [collapse_runs]. rewrite H. reflexivity. Qed.

Lemma collapse_runs_blank s : forall pending started,
  has_visible s = false -> collapse_runs pending started s = [].
Proof.
  induction s as [|c s IH]; intros pending started H; [reflexivity|].
  unfold has_visible in H. cbn [existsb] in H. apply orb_false_iff in H.
  destruct H as [Hc Hs]. apply negb_false_iff in Hc.
  cbn [collapse_runs]. rewrite Hc. apply IH, Hs.
Qed.

Lemma collapse_runs_visible s : forall pending started,
  has_visible s = true -> collapse_runs pending started s <> [].
Proof.
  induction s as [|c s IH]; intros pending started H; [discriminate H|].
  cbn [collapse_runs]. destruct (isspace c) eqn:Hc.
  - apply IH. unfold has_visible in H. cbn [existsb] in H. rewrite Hc in H. exact H.
  - intros E. apply app_eq_nil in E. destruct E as [_ E]. discriminate E.
Qed.

(** A pending run that holds a line boundary or a double space will be
    written as one space, whatever whitespace follows. *)
Lemma has_linebreak_app a b : has_linebreak (a ++ b) = has_linebreak a || has_linebreak b.
Proof. apply existsb_app. Qed.

Lemma double_space_app_l a b : double_space a = true -> double_space (a ++ b) = true.
Proof.
  induction a as [|c a IH]; [discriminate|]. destruct a as [|d a'].
  - discriminate.
  - change ((c :: d :: a') ++ b) with (c :: d :: (a' ++ b)).
    rewrite !double_space_eq. intros H. apply orb_true_iff in H.
    destruct H as [H|H]; [rewrite H; reflexivity|].
    specialize (IH H). cbn [app] in IH. rewrite IH. apply orb_true_r.
Qed.

Lemma double_space_end a : double_space ((a ++ [SPACE]) ++ [SPACE]) = true.
Proof.
  rewrite <- app_assoc. cbn [app].
  induction a as [|c a IH]; [reflexivity|]. cbn [app].
  destruct (a ++ [SPACE; SPACE]) as [|d r] eqn:E; [destruct a; discriminate E|].
  rewrite double_space_eq, IH. apply orb_true_r.
Qed.

Lemma hard_grows a b :
  has_linebreak a || double_space a = true ->
  has_linebreak (a ++ b) || double_space (a ++ b) = true.
Proof.
  intros H. apply orb_true_iff in H. apply orb_true_iff. destruct H as [H|H].
  - left. rewrite has_linebreak_app, H. reflexivity.
  - right. apply double_space_app_l, H.
Qed.

Lemma separator_hard run :
  has_linebreak run || double_space run = true -> separator run = [SPACE].
Proof.
  intros H. destruct run as [|c r]; [discriminate H|].
  unfold separator. rewrite H. reflexivity.
Qed.

Lemma separator_soft run :
  has_linebreak run = false -> double_space run = false -> separator run = run.
Proof.
  intros H1 H2. destruct run as [|c r]; [reflexivity|].
  unfold separator. rewrite H1, H2. reflexivity.
Qed.

Lemma collapse_runs_hard s : forall pending started,
  has_linebreak pending || double_space pending = true ->
  collapse_runs pending started s
  = match collapse_whitespace s with
    | [] => []
    | text => (if started then [SPACE] else []) ++ text
    end.
Proof.
  induction s as [|c s IH]; intros pending started H; [reflexivity|].
  cbn [collapse_runs]. destruct (isspace c) eqn:Hc.
  - rewrite collapse_whitespace_lead by exact Hc.
    apply IH, hard_grows, H.
  - rewrite collapse_whitespace_visible by exact Hc.
    rewrite separator_hard by exact H. reflexivity.
Qed.

(** The pass over [a ++ b] when [b] begins a run that is written as one
    space. *)
Lemma collapse_runs_app_hard b :
  (forall pending started,
      collapse_runs pending started b
      = match collapse_whitespace b with
        | [] => []
        | text => (if started then [SPACE] else []) ++ text
        end) ->
  forall a pending started,
    collapse_runs pending started (a ++ b)
    = collapse_runs pending started a
      ++ match collapse_whitespace b with
         | [] => []
         | text => (if started || has_visible a then [SPACE] else []) ++ text
         end.
Proof.
  intros Hb. induction a as [|c a IH]; intros pending started.
  - cbn [app collapse_runs has_visible existsb]. rewrite orb_false_r. apply Hb.
  - cbn [app collapse_runs]. unfold has_visible. cbn [existsb].
    fold (has_visible a). destruct (isspace c) eqn:Hc; cbn [negb orb].
    + apply IH.
    + rewrite IH, orb_true_r. cbn [orb].
      rewrite <- app_assoc. reflexivity.
Qed.

Lemma glue_nil_r a : glue a [] = a.
Proof. destruct a; reflexivity. Qed.

Lemma collapse_whitespace_glue a b :
  (forall pending started,
      collapse_runs pending started b
      = match collapse_whitespace b with
        | [] => []
        | text => (if started then [SPACE] else []) ++ text
        end) ->
  collapse_whitespace (a ++ b) = glue (collapse_whitespace a) (collapse_whitespace b).
Proof.
  intros Hb. unfold collapse_whitespace at 1.
  rewrite (@collapse_runs_app_hard b Hb). cbn [orb].
  fold (collapse_whitespace a).
  destruct (has_visible a) eqn:Hv.
  - pose proof (@collapse_runs_visible a [] false Hv) as Hne.
    fold (collapse_whitespace a) in Hne.
    destruct (collapse_whitespace a) as [|x r]; [congruence|].
    destruct (collapse_whitespace b); [apply app_nil_r | reflexivity].
  - assert (Ea : collapse_whitespace a = [])
      by (apply collapse_runs_blank; exact Hv).
    rewrite Ea. destruct (collapse_whitespace b); reflexivity.
Qed.

(** At a line boundary and at a double space the cleaned text is the two
    cleaned sides, put together. *)
Lemma collapse_whitespace_linebreak a c rest :
  is_linebreak c = true ->
  collapse_whitespace (a ++ c :: rest)
  = glue (collapse_whitespace a) (collapse_whitespace rest).
Proof.
  intros Hc. assert (Hs : isspace c = true) by (apply linebreak_isspace; exact Hc).
  rewrite <- (@collapse_whitespace_lead c rest Hs).
  apply collapse_whitespace_glue. intros pending started.
  cbn [collapse_runs]. rewrite Hs.
  rewrite collapse_whitespace_lead by exact Hs.
  apply collapse_runs_hard. rewrite has_linebreak_app. unfold has_linebreak at 2.
  cbn [existsb]. rewrite Hc. cbn [orb]. rewrite orb_true_r. reflexivity.
Qed.

Lemma collapse_whitespace_double_space a rest :
  collapse_whitespace (a ++ SPACE :: SPACE :: rest)
  = glue (collapse_whitespace a) (collapse_whitespace rest).
Proof.
  assert (Hs : isspace SPACE = true) by reflexivity.
  rewrite <- (@collapse_whitespace_lead SPACE rest Hs).
  rewrite <- (@collapse_whitespace_lead SPACE (SPACE :: rest) Hs).
  apply collapse_whitespace_glue. intros pending started.
  cbn [collapse_runs]. rewrite Hs.
  rewrite !collapse_whitespace_lead by exact Hs.
  apply collapse_runs_hard. rewrite double_space_end. apply orb_true_r.
Qed.

(** ** Stripping and the pieces without line boundary and double space *)

Lemma collapse_whitespace_lstrip s :
  collapse_whitespace (lstrip s) = collapse_whitespace s.
Proof.
  induction s as [|c s IH]; [reflexivity|]. cbn [lstrip].
  destruct (isspace c) eqn:Hc; [|reflexivity].
  rewrite collapse_whitespace_lead by exact Hc. exact IH.
Qed.

Lemma rstrip_nil_blank s : rstrip s = [] -> has_visible s = false.
Proof.
  induction s as [|c s IH]; [reflexivity|]. cbn [rstrip].
  destruct (rstrip s) as [|d r]; [|discriminate].
  destruct (isspace c) eqn:Hc; [|discriminate]. intros _.
  unfold has_visible. cbn [existsb]. rewrite Hc. apply IH. reflexivity.
Qed.

Lemma rstrip_visible c s : isspace c = false -> rstrip (c :: s) = c :: rstrip s.
Proof. intros H. cbn [rstrip]. destruct (rstrip s); [rewrite H|]; reflexivity. Qed.

Lemma collapse_runs_rstrip s : forall pending started,
  collapse_runs pending started (rstrip s) = collapse_runs pending started s.
Proof.
  induction s as [|c s IH]; intros pending started; [reflexivity|].
  destruct (isspace c) eqn:Hc.
  - cbn [rstrip]. destruct (rstrip s) as [|d r] eqn:E.
    + rewrite Hc. symmetry. apply collapse_runs_blank.
      unfold has_visible. cbn [existsb]. rewrite Hc. apply rstrip_nil_blank, E.
    + cbn [collapse_runs]. rewrite Hc. apply IH.
  - rewrite rstrip_visible by exact Hc. cbn [collapse_runs]. rewrite Hc, IH.
    reflexivity.
Qed.

Lemma collapse_whitespace_strip s :
  collapse_whitespace (strip s) = collapse_whitespace s.
Proof.
  unfold strip, collapse_whitespace. rewrite collapse_runs_rstrip.
  apply collapse_whitespace_lstrip.
Qed.

Lemma double_space_app_inv a b :
  double_space (a ++ b) = false -> double_space a = false /\ double_space b = false.
Proof.
  intros H. split.
  - destruct (double_space a) eqn:E; [|reflexivity].
    rewrite (@double_space_app_l a b E) in H. discriminate H.
  - induction a as [|c a IH]; [exact H|]. apply IH.
    eapply double_space_tail. exact H.
Qed.

(** Inside a piece every run is kept: the pass only strips the piece. *)
Lemma collapse_runs_soft s : forall pending,
  has_linebreak (pending ++ s) = false ->
  double_space (pending ++ s) = false ->
  collapse_runs pending true s
  = match rstrip s with
    | [] => []
    | kept => pending ++ kept
    end.
Proof.
  induction s as [|c s IH]; intros pending Hlb Hds; [reflexivity|].
  cbn [collapse_runs]. destruct (isspace c) eqn:Hc.
  - rewrite IH by (rewrite <- app_assoc; assumption).
    cbn [rstrip]. destruct (rstrip s) as [|d r]; [rewrite Hc; reflexivity|].
    rewrite <- app_assoc. reflexivity.
  - rewrite rstrip_visible by exact Hc.
    rewrite has_linebreak_app in Hlb. apply orb_false_iff in Hlb.
    destruct Hlb as [Hlb1 Hlb2].
    apply double_space_app_inv in Hds. destruct Hds as [Hds1 Hds2].
    rewrite separator_soft by assumption.
    rewrite (IH []).
    + destruct (rstrip s); reflexivity.
    + unfold has_linebreak in *. cbn [existsb app] in *.
      apply orb_false_iff in Hlb2. apply Hlb2.
    + eapply double_space_tail. exact Hds2.
Qed.

Lemma collapse_whitespace_piece s :
  has_linebreak s = false -> double_space s = false ->
  collapse_whitespace s = strip s.
Proof.
  intros Hlb Hds. rewrite <- collapse_whitespace_lstrip. unfold strip.
  pose proof (lstrip_head s) as Hh.
  pose proof (@lstrip_double_space s Hds) as Hds'.
  assert (Hlb' : has_linebreak (lstrip s) = false).
  { clear Hh Hds Hds'. induction s as [|c s IH]; [reflexivity|].
    unfold has_linebreak in Hlb. cbn [existsb] in Hlb.
    apply orb_false_iff in Hlb. destruct Hlb as [Hc Hs].
    cbn [lstrip]. destruct (isspace c); [apply IH, Hs|].
    unfold has_linebreak. cbn [existsb]. rewrite Hc. exact Hs. }
  destruct (lstrip s) as [|c r]; [reflexivity|].
  cbn [head_space] in Hh.
  rewrite collapse_whitespace_visible, rstrip_visible by exact Hh.
  f_equal. rewrite (@collapse_runs_soft r []).
  - destruct (rstrip r); reflexivity.
  - unfold has_linebreak in *. cbn [existsb app] in *.
    apply orb_false_iff in Hlb'. apply Hlb'.
  - eapply double_space_tail. exact Hds'.
Qed.

(** ** Gluing the chunks *)

Lemma glue_assoc a b c : glue (glue a b) c = glue a (glue b c).
Proof.
  destruct a as [|x a]; [reflexivity|].
  destruct b as [|y b]; [reflexivity|].
  destruct c as [|z c]; [reflexivity|].
  cbn [glue app]. rewrite <- app_assoc. reflexivity.
Qed.

Lemma glue_all_app l1 l2 :
  fold_right glue [] (l1 ++ l2) = glue (fold_right glue [] l1) (fold_right glue [] l2).
Proof.
  induction l1 as [|x l1 IH]; [reflexivity|].
  cbn [app fold_right]. rewrite IH, glue_assoc. reflexivity.
Qed.

Lemma join_nonempty l :
  Forall (fun x => x <> []) l -> l <> [] -> join [SPACE] l <> [].
Proof.
  intros H Hne. destruct H as [|x l Hx Hl]; [congruence|].
  cbn [join]. destruct l; [exact Hx|].
  intros E. apply app_eq_nil in E. destruct E as [E _]. exact (Hx E).
Qed.

Lemma filter_truthy_nonempty l : Forall (fun x => x <> []) (filter truthy l).
Proof.
  apply Forall_forall. intros x Hx. apply filter_In in Hx. destruct Hx as [_ Hx].
  destruct x; [discriminate Hx | discriminate].
Qed.

(** [' '.join(chunk for chunk in chunks if chunk)] glues the chunks. *)
Lemma join_filter_glue l :
  join [SPACE] (filter truthy l) = fold_right glue [] l.
Proof.
  induction l as [|x l IH]; [reflexivity|].
  cbn [filter fold_right]. rewrite <- IH. destruct x as [|c x']; cbn [truthy].
  - reflexivity.
  - cbn [join]. destruct (filter truthy l) as [|y l'] eqn:E; [reflexivity|].
    assert (Hne : join [SPACE] (y :: l') <> []).
    { apply join_nonempty; [|discriminate]. rewrite <- E.
      apply filter_truthy_nonempty. }
    destruct (join [SPACE] (y :: l')) eqn:Ej; [congruence|]. reflexivity.
Qed.

(** The pieces of a line, glued, are the cleaned line. *)
Lemma split_2sp_glue s : forall before,
  exists p ps,
    split_2sp s = p :: ps
    /\ glue (collapse_whitespace (before ++ p))
            (fold_right glue [] (map collapse_whitespace ps))
       = collapse_whitespace (before ++ s).
Proof.
  enough (H : (forall before, exists p ps,
                  split_2sp s = p :: ps
                  /\ glue (collapse_whitespace (before ++ p))
                          (fold_right glue [] (map collapse_whitespace ps))
                     = collapse_whitespace (before ++ s))
              /\ forall c before, exists p ps,
                  split_2sp (c :: s) = p :: ps
                  /\ glue (collapse_whitespace (before ++ p))
                          (fold_right glue [] (map collapse_whitespace ps))
                     = collapse_whitespace (before ++ c :: s))
    by apply H.
  induction s as [|d r [IH1 IH2]].
  - split; [intros before | intros c before]; eexists _, [];
      (split; [reflexivity | apply glue_nil_r]).
  - split; [apply IH2|]. intros c before.
    change (split_2sp (c :: d :: r))
      with (if (c =? SPACE)%N && (d =? SPACE)%N then [] :: split_2sp r
            else cons_head c (split_2sp (d :: r))).
    destruct ((c =? SPACE)%N && (d =? SPACE)%N) eqn:Hcd.
    + apply andb_true_iff in Hcd. destruct Hcd as [Hc Hd].
      apply N.eqb_eq in Hc, Hd. subst c d.
      exists [], (split_2sp r). split; [reflexivity|].
      destruct (IH1 []) as [p [ps [E Hglue]]]. rewrite E.
      cbn [map fold_right]. cbn [app] in Hglue. rewrite Hglue, app_nil_r.
      symmetry. apply collapse_whitespace_double_space.
    + destruct (IH2 d (before ++ [c])) as [p [ps [E Hglue]]].
      rewrite E. cbn [cons_head]. exists (c :: p), ps. split; [reflexivity|].
      rewrite <- !app_assoc in Hglue. exact Hglue.
Qed.

Lemma pieces_glue line :
  has_linebreak line = false ->
  fold_right glue [] (map strip (split_2sp line)) = collapse_whitespace line.
Proof.
  intros Hlb.
  assert (Hmap : map strip (split_2sp line) = map collapse_whitespace (split_2sp line)).
  { apply map_ext_in. intros p Hp. symmetry. apply collapse_whitespace_piece.
    - pose proof (@split_2sp_Forall not_linebreak line (@has_linebreak_Forall line Hlb)) as H.
      rewrite Forall_forall in H. specialize (H p Hp).
      unfold has_linebreak. clear Hp. induction H as [|c s Hc Hs IH]; [reflexivity|].
      cbn [existsb]. rewrite Hc, IH. reflexivity.
    - pose proof (split_2sp_double_space line) as H.
      rewrite Forall_forall in H. apply H, Hp. }
  rewrite Hmap. destruct (split_2sp_glue line []) as [p [ps [E Hglue]]].
  rewrite E. exact Hglue.
Qed.

(** The lines of a text, glued, are the cleaned text. *)
Lemma splitlines_from_glue s : forall b cur,
  (b = true -> cur = []) ->
  fold_right glue [] (map collapse_whitespace (splitlines_from b cur s))
  = collapse_whitespace (rev cur ++ s).
Proof.
  induction s as [|c s IH]; intros b cur Hb; cbn [splitlines_from].
  - rewrite app_nil_r. destruct cur as [|a cur']; [reflexivity|].
    cbn [map fold_right]. apply glue_nil_r.
  - destruct (b && (c =? LF)%N) eqn:Hskip.
    + apply andb_true_iff in Hskip. destruct Hskip as [Hbt Hc].
      apply N.eqb_eq in Hc. subst c. rewrite (Hb Hbt). cbn [rev app].
      rewrite (IH false []) by discriminate.
      cbn [rev app]. symmetry. apply collapse_whitespace_lead. reflexivity.
    + destruct (is_linebreak c) eqn:Hc.
      * cbn [map fold_right]. rewrite (IH (c =? CR)%N []) by reflexivity.
        cbn [rev app]. symmetry. apply collapse_whitespace_linebreak, Hc.
      * rewrite (IH false (c :: cur)) by discriminate.
        cbn [rev]. rewrite <- app_assoc. reflexivity.
Qed.

(** The cleaning of the source is the pass by the spec's words. *)
Lemma clean_text_collapse text : clean_text text = collapse_whitespace text.
Proof.
  unfold clean_text. rewrite join_filter_glue.
  pose proof (@splitlines_from_glue text false [] (fun H => eq_refl)) as Hlines.
  fold (splitlines text) in Hlines. cbn [rev app] in Hlines. rewrite <- Hlines.
  clear Hlines.
  pose proof (@splitlines_from_no_linebreak text false [] (Forall_nil _)) as Hlb.
  fold (splitlines text) in Hlb.
  induction Hlb as [|line lines Hline Hl IH]; [reflexivity|].
  cbn [map flat_map fold_right]. rewrite glue_all_app, IH. f_equal.
  rewrite pieces_glue; [apply collapse_whitespace_strip|].
  apply strip_Forall in Hline. unfold has_linebreak. clear IH.
  induction Hline as [|c s Hc Hs IHs]; [reflexivity|].
  cbn [existsb]. rewrite Hc, IHs. reflexivity.
Qed.

(** ** What becomes of a run between two visible characters *)

Lemma collapse_runs_after_visible a : forall c rest pending started,
  isspace c = false ->
  collapse_runs pending started ((a ++ [c]) ++ rest)
  = collapse_runs pending started (a ++ [c]) ++ collapse_runs [] true rest.
Proof.
  induction a as [|x a IH]; intros c rest pending started Hc.
  - cbn [app collapse_runs]. rewrite Hc. rewrite <- app_assoc. reflexivity.
  - cbn [app collapse_runs]. destruct (isspace x).
    + apply IH, Hc.
    + rewrite (IH c rest [] true Hc), <- app_assoc. reflexivity.
Qed.

Lemma collapse_runs_run run : forall pending d rest,
  has_visible run = false -> isspace d = false ->
  collapse_runs pending true (run ++ d :: rest)
  = separator (pending ++ run) ++ d :: collapse_runs [] true rest.
Proof.
  induction run as [|x run IH]; intros pending d rest Hrun Hd.
  - cbn [app collapse_runs]. rewrite Hd, app_nil_r. reflexivity.
  - unfold has_visible in Hrun. cbn [existsb] in Hrun.
    apply orb_false_iff in Hrun. destruct Hrun as [Hx Hrun].
    apply negb_false_iff in Hx.
    cbn [app collapse_runs]. rewrite Hx, (IH (pending ++ [x]) d rest Hrun Hd).
    rewrite <- app_assoc. reflexivity.
Qed.

(** A whitespace run between two visible characters is written as its
    separator. *)
Lemma clean_text_between a c run d b :
  isspace c = false -> has_visible run = false -> isspace d = false ->
  clean_text (a ++ [c] ++ run ++ [d] ++ b)
  = clean_text (a ++ [c]) ++ separator run ++ clean_text ([d] ++ b).
Proof.
  intros Hc Hrun Hd. rewrite !clean_text_collapse.
  unfold collapse_whitespace at 1 2.
  rewrite app_assoc, (@collapse_runs_after_visible a c (run ++ [d] ++ b) [] false Hc).
  f_equal. cbn [app]. rewrite (@collapse_runs_run run [] d b Hrun Hd).
  rewrite collapse_whitespace_visible by exact Hd. reflexivity.
Qed.

(* ================================================================== *)
(** * browse_website: the claims *)
(* ================================================================== *)

Lemma browse_website_success env url response soup :
  requests_get env url BROWSE_HEADERS 15 = Returns response ->
  raise_for_status response = Returns tt ->
  BeautifulSoup env (content response) = Returns soup ->
  result_of (browse_website env url) = Returns (extracted_text soup).
Proof.
  intros Hget Hstatus Hsoup.
  rewrite browse_website_result, Hget, Hstatus, Hsoup. reflexivity.
Qed.

Lemma browse_website_trace_success env url response soup :
  requests_get env url BROWSE_HEADERS 15 = Returns response ->
  raise_for_status response = Returns tt ->
  BeautifulSoup env (content response) = Returns soup ->
  exists before after,
    trace_of (browse_website env url)
    = before
      ++ (if (MAX_LEN <? length (clean_text (get_text (remove_scripts soup))))%nat
          then [TRUNCATION_NOTE] else [])
      ++ after.
Proof.
  intros Hget Hstatus Hsoup.
  unfold browse_website. cbv zeta. fold BROWSE_HEADERS. step_trace.
  rewrite Hget. step_trace. rewrite Hstatus. step_trace. rewrite Hsoup. step_trace.
  rewrite truncate_result, truncate_trace. step_trace.
  eexists (_ :: _ :: _ :: nil), _. cbn [app]. rewrite app_nil_r. reflexivity.
Qed.

(** C3, as the code has it: a failure of the fetch that [requests] raises
    as a [RequestException] (network layer, malformed or unreachable URL)
    and an HTTP error status are returned as the string
    "U+274C Error browsing <url>: <detail>"; a fetched and parsed page gives
    the extracted text; an exception leaves the tool only when it is not a
    [RequestException], raised by the fetch or by the parser. *)
Theorem browse_website_returns_request_failures env url :
  (forall e,
      requests_get env url BROWSE_HEADERS 15 = Raises e ->
      is_RequestException e = true ->
      result_of (browse_website env url)
      = Returns (CROSS ++ lit " Error browsing " ++ url ++ lit ": " ++ exn_str e))
  /\ (forall response e,
      requests_get env url BROWSE_HEADERS 15 = Returns response ->
      raise_for_status response = Raises e ->
      result_of (browse_website env url)
      = Returns (CROSS ++ lit " Error browsing " ++ url ++ lit ": " ++ exn_str e))
  /\ (forall response soup,
      requests_get env url BROWSE_HEADERS 15 = Returns response ->
      raise_for_status response = Returns tt ->
      BeautifulSoup env (content response) = Returns soup ->
      result_of (browse_website env url) = Returns (extracted_text soup))
  /\ (forall e,
      result_of (browse_website env url) = Raises e ->
      is_RequestException e = false
      /\ (requests_get env url BROWSE_HEADERS 15 = Raises e
          \/ exists response,
               requests_get env url BROWSE_HEADERS 15 = Returns response
               /\ raise_for_status response = Returns tt
               /\ BeautifulSoup env (content response) = Raises e)).
Proof.
  rewrite browse_website_result. repeat split.
  - intros e -> ->. reflexivity.
  - intros response e -> ->. reflexivity.
  - intros response soup -> -> ->. reflexivity.
  - destruct (requests_get env url BROWSE_HEADERS 15) as [response|e'] in H.
    + destruct (raise_for_status response) as [[]|e'] in H; [|discriminate].
      destruct (BeautifulSoup env (content response)) as [soup|e'] in H; [discriminate|].
      destruct (is_RequestException e') eqn:E; [discriminate|]. congruence.
    + destruct (is_RequestException e') eqn:E; [discriminate|]. congruence.
  - destruct (requests_get env url BROWSE_HEADERS 15) as [response|e'].
    + right. exists response. split; [reflexivity|].
      destruct (raise_for_status response) as [[]|e'']; [|discriminate].
      split; [reflexivity|].
      destruct (BeautifulSoup env (content response)) as [soup|e'']; [discriminate|].
      destruct (is_RequestException e''); [discriminate|]. congruence.
    + left. destruct (is_RequestException e'); [discriminate|]. congruence.
Qed.

Lemma browse_website_returns_request_failures_witness :
  result_of (browse_website Samples.env_unreachable Samples.url0)
  = Returns (CROSS ++ lit " Error browsing " ++ Samples.url0 ++ lit ": "
             ++ lit "Max retries exceeded")
  /\ result_of (browse_website Samples.env_404 Samples.url0)
     = Returns (CROSS ++ lit " Error browsing " ++ Samples.url0 ++ lit ": "
                ++ lit "404 Client Error: Not Found for url: " ++ Samples.url0)
  /\ result_of (browse_website (Samples.env_page Samples.soup_scripts) Samples.url0)
     = Returns (lit "OP-1 600").
Proof.
  split; [|split].
  - apply (proj1 (browse_website_returns_request_failures Samples.env_unreachable
                    Samples.url0) Samples.connection_error); reflexivity.
  - apply (proj1 (proj2 (browse_website_returns_request_failures Samples.env_404
                           Samples.url0))
             (Samples.response_with 404 "Not Found")
             (Exn HTTPError (lit "404 Client Error: Not Found for url: " ++ Samples.url0)));
      reflexivity.
  - apply (proj1 (proj2 (proj2 (browse_website_returns_request_failures
                                  (Samples.env_page Samples.soup_scripts) Samples.url0)))
             (Samples.response_with 200 "OK") Samples.soup_scripts); reflexivity.
Defined.

(** C3, as the spec states it, fails: the parser's refusal of a page is
    not a [RequestException] and leaves [browse_website] as an exception. *)
Lemma browse_website_parser_error_escapes :
  result_of (browse_website Samples.env_parser_rejects Samples.url0)
  = Raises Samples.parser_error.
Proof. reflexivity. Qed.

(** C5: when the cleaned text of a fetched page is longer than 8000
    characters, [browse_website] returns exactly its first 8000 characters
    (and leaves the log note); a cleaned text of at most 8000 characters is
    returned as it is. *)
Theorem browse_website_truncates env url response soup :
  requests_get env url BROWSE_HEADERS 15 = Returns response ->
  raise_for_status response = Returns tt ->
  BeautifulSoup env (content response) = Returns soup ->
  let cleaned := clean_text (get_text (remove_scripts soup)) in
  ((MAX_LEN < length cleaned)%nat ->
     exists text,
       result_of (browse_website env url) = Returns text
       /\ length text = MAX_LEN
       /\ text = firstn MAX_LEN cleaned
       /\ In TRUNCATION_NOTE (trace_of (browse_website env url)))
  /\ ((length cleaned <= MAX_LEN)%nat ->
     result_of (browse_website env url) = Returns cleaned).
Proof.
  intros Hget Hstatus Hsoup cleaned.
  rewrite (browse_website_success _ _ Hget Hstatus Hsoup).
  unfold extracted_text. fold cleaned. split.
  - intros Hlong. exists (truncated cleaned).
    destruct (truncated_long _ Hlong) as [Hfirst Hlen].
    repeat split; auto.
    destruct (browse_website_trace_success _ _ Hget Hstatus Hsoup)
      as [before [after ->]].
    fold cleaned. apply Nat.ltb_lt in Hlong. rewrite Hlong.
    apply in_or_app. right. left. reflexivity.
  - intros Hshort. rewrite (truncated_short _ Hshort). reflexivity.
Qed.

Lemma browse_website_truncates_witness :
  (exists text,
     result_of (browse_website (Samples.env_page Samples.soup_long) Samples.url0)
     = Returns text
     /\ length text = MAX_LEN
     /\ text = firstn MAX_LEN (clean_text (get_text (remove_scripts Samples.soup_long)))
     /\ In TRUNCATION_NOTE
          (trace_of (browse_website (Samples.env_page Samples.soup_long) Samples.url0)))
  /\ result_of (browse_website (Samples.env_page Samples.soup_scripts) Samples.url0)
     = Returns (clean_text (get_text (remove_scripts Samples.soup_scripts))).
Proof.
  split.
  - apply (proj1 (@browse_website_truncates (Samples.env_page Samples.soup_long)
                    Samples.url0 (Samples.response_with 200 "OK") Samples.soup_long
                    eq_refl eq_refl eq_refl)).
    apply Nat.ltb_lt. vm_compute. reflexivity.
  - apply (proj2 (@browse_website_truncates (Samples.env_page Samples.soup_scripts)
                    Samples.url0 (Samples.response_with 200 "OK") Samples.soup_scripts
                    eq_refl eq_refl eq_refl)).
    apply Nat.leb_le. vm_compute. reflexivity.
Defined.

(** C7: the text [browse_website] returns for a fetched page is computed
    from the strings outside script and style elements only: what is inside
    such an element has no part in it. *)
Theorem browse_website_excludes_script_style env url response soup :
  requests_get env url BROWSE_HEADERS 15 = Returns response ->
  raise_for_status response = Returns tt ->
  BeautifulSoup env (content response) = Returns soup ->
  NoDup (tag_idents soup) ->
  result_of (browse_website env url)
  = Returns (truncated (clean_text (visible_text soup))).
Proof.
  intros Hget Hstatus Hsoup Hnd.
  rewrite (browse_website_success _ _ Hget Hstatus Hsoup).
  unfold extracted_text. rewrite (@get_text_remove_scripts soup Hnd). reflexivity.
Qed.

Lemma browse_website_excludes_script_style_witness :
  NoDup (tag_idents Samples.soup_scripts)
  /\ visible_text Samples.soup_scripts = lit "OP-1   600"
  /\ result_of (browse_website (Samples.env_page Samples.soup_scripts) Samples.url0)
     = Returns (truncated (clean_text (visible_text Samples.soup_scripts))).
Proof.
  assert (Hnd : NoDup (tag_idents Samples.soup_scripts)).
  { vm_compute. repeat (constructor; [simpl; intuition discriminate|]). constructor. }
  split; [exact Hnd|]. split; [reflexivity|].
  apply (@browse_website_excludes_script_style (Samples.env_page Samples.soup_scripts)
           Samples.url0 (Samples.response_with 200 "OK") Samples.soup_scripts
           eq_refl eq_refl eq_refl Hnd).
Defined.

(** C9, as the code has it: the text returned for a fetched page is one
    flat string, the first 8000 characters of the cleaned document text.
    The cleaning is the pass by the spec's words: whitespace at the start
    and at the end of the text is dropped, and a whitespace run between two
    visible characters is written as a single space when it holds a line
    boundary or two adjacent spaces (U+0020), and kept as it is otherwise.
    So the result has no line boundary and no two adjacent spaces in it. *)
Theorem browse_website_flat_text env url response soup :
  requests_get env url BROWSE_HEADERS 15 = Returns response ->
  raise_for_status response = Returns tt ->
  BeautifulSoup env (content response) = Returns soup ->
  let document_text := get_text (remove_scripts soup) in
  let cleaned := clean_text document_text in
  (exists text,
      result_of (browse_website env url) = Returns text
      /\ text = firstn MAX_LEN cleaned
      /\ has_linebreak text = false
      /\ double_space text = false)
  /\ cleaned = collapse_whitespace document_text
  /\ (forall a c run d b,
        document_text = a ++ [c] ++ run ++ [d] ++ b ->
        isspace c = false -> has_visible run = false -> isspace d = false ->
        cleaned = clean_text (a ++ [c])
                  ++ (match run with
                      | [] => []
                      | _ => if has_linebreak run || double_space run
                             then [SPACE] else run
                      end)
                  ++ clean_text ([d] ++ b)).
Proof.
  intros Hget Hstatus Hsoup document_text cleaned. split; [|split].
  - rewrite (browse_website_success _ _ Hget Hstatus Hsoup).
    eexists. split; [reflexivity|].
    unfold extracted_text, truncated. fold document_text. fold cleaned.
    destruct (MAX_LEN <? length cleaned)%nat eqn:E.
    + split; [reflexivity|].
      split; [apply has_linebreak_firstn, clean_text_no_linebreak
             | apply double_space_firstn, clean_text_no_double_space].
    + apply Nat.ltb_ge in E. rewrite firstn_all2 by exact E.
      split; [reflexivity|].
      split; [apply clean_text_no_linebreak | apply clean_text_no_double_space].
  - apply clean_text_collapse.
  - intros a c run d b Hdoc Hc Hrun Hd. subst cleaned. rewrite Hdoc.
    apply (@clean_text_between a c run d b Hc Hrun Hd).
Qed.

Lemma browse_website_flat_text_witness :
  (exists text,
      result_of (browse_website (Samples.env_page Samples.soup_scripts) Samples.url0)
      = Returns text
      /\ text = firstn MAX_LEN (clean_text (get_text (remove_scripts Samples.soup_scripts)))
      /\ has_linebreak text = false
      /\ double_space text = false)
  /\ clean_text (get_text (remove_scripts Samples.soup_scripts))
     = clean_text (lit "OP-1") ++ [SPACE] ++ clean_text (lit "600")
  /\ clean_text (get_text (remove_scripts Samples.soup_tabs))
     = clean_text (lit "a") ++ [9%N; 9%N] ++ clean_text (lit "b").
Proof.
  split; [|split].
  - apply (proj1 (@browse_website_flat_text (Samples.env_page Samples.soup_scripts)
                    Samples.url0 (Samples.response_with 200 "OK") Samples.soup_scripts
                    eq_refl eq_refl eq_refl)).
  - apply (proj2 (proj2 (@browse_website_flat_text
                           (Samples.env_page Samples.soup_scripts)
                           Samples.url0 (Samples.response_with 200 "OK")
                           Samples.soup_scripts eq_refl eq_refl eq_refl))
             (lit "OP-") 49%N (lit "   ") 54%N (lit "00"));
      reflexivity.
  - apply (proj2 (proj2 (@browse_website_flat_text
                           (Samples.env_page Samples.soup_tabs)
                           Samples.url0 (Samples.response_with 200 "OK")
                           Samples.soup_tabs eq_refl eq_refl eq_refl))
             [] 97%N [9%N; 9%N] 98%N []);
      reflexivity.
Defined.

(** C9, as the spec states it, fails: a run of two tabs inside a line is
    neither a line boundary nor a double space, and is returned as it
    is. *)
Lemma browse_website_keeps_tab_run :
  result_of (browse_website (Samples.env_page Samples.soup_tabs) Samples.url0)
  = Returns Samples.text_tabs
  /\ whitespace_run Samples.text_tabs = true.
Proof. split; reflexivity. Qed.

(** C10: the bound of 8000 characters holds of what the success branch
    returns; the failure branch returns the marker, the whole URL and the
    whole exception text, which can be longer than 8000 characters. *)
Theorem browse_website_bound_on_success_only :
  (forall env url response soup,
      requests_get env url BROWSE_HEADERS 15 = Returns response ->
      raise_for_status response = Returns tt ->
      BeautifulSoup env (content response) = Returns soup ->
      exists text,
        result_of (browse_website env url) = Returns text
        /\ (length text <= MAX_LEN)%nat)
  /\ (forall env url e,
      (requests_get env url BROWSE_HEADERS 15 = Raises e
       /\ is_RequestException e = true)
      \/ (exists response,
             requests_get env url BROWSE_HEADERS 15 = Returns response
             /\ raise_for_status response = Raises e) ->
      exists text,
        result_of (browse_website env url) = Returns text
        /\ text = CROSS ++ lit " Error browsing " ++ url ++ lit ": " ++ exn_str e
        /\ length text = (19 + length url + length (exn_str e))%nat)
  /\ (exists env url text,
        result_of (browse_website env url) = Returns text
        /\ (MAX_LEN < length text)%nat).
Proof.
  split; [|split].
  - intros env url response soup Hget Hstatus Hsoup.
    rewrite (browse_website_success _ _ Hget Hstatus Hsoup).
    eexists. split; [reflexivity | apply truncated_length].
  - intros env url e H.
    assert (E : result_of (browse_website env url) = Returns (browse_error_msg url e)).
    { rewrite browse_website_result.
      destruct H as [[-> ->] | [response [-> ->]]]; reflexivity. }
    rewrite E. eexists. split; [reflexivity|]. split; [reflexivity|].
    unfold browse_error_msg. rewrite !length_app. cbn [length CROSS lit map
      list_ascii_of_string]. lia.
  - exists Samples.env_unreachable, Samples.long_url. eexists.
    split; [reflexivity|]. apply Nat.ltb_lt. vm_compute. reflexivity.
Qed.

Lemma browse_website_bound_on_success_only_witness :
  (exists text,
      result_of (browse_website (Samples.env_page Samples.soup_long) Samples.url0)
      = Returns text
      /\ (length text <= MAX_LEN)%nat)
  /\ (exists text,
      result_of (browse_website Samples.env_unreachable Samples.long_url) = Returns text
      /\ text = CROSS ++ lit " Error browsing " ++ Samples.long_url ++ lit ": "
                ++ exn_str Samples.connection_error
      /\ length text
         = (19 + length Samples.long_url + length (exn_str Samples.connection_error))%nat).
Proof.
  split.
  - apply (proj1 browse_website_bound_on_success_only
             (Samples.env_page Samples.soup_long) Samples.url0
             (Samples.response_with 200 "OK") Samples.soup_long
             eq_refl eq_refl eq_refl).
  - apply (proj1 (proj2 browse_website_bound_on_success_only)
             Samples.env_unreachable Samples.long_url Samples.connection_error).
    left. split; reflexivity.
Defined.

(* ================================================================== *)
(** * send_notification *)
(* ================================================================== *)

Lemma sent_is_not_an_error e : SENT_MSG <> notify_error_msg e.
Proof. discriminate. Qed.

Lemma sent_is_not_no_arn : SENT_MSG <> NO_ARN_MSG.
Proof. discriminate. Qed.

Ltac run_step := step_trace; unfold is_Exception; cbv iota; step_trace.

(** Case analysis on every answer of the environment along a run of
    [send_notification]. *)
Ltac notify_paths :=
  unfold send_notification; cbv zeta;
  repeat (run_step;
          match goal with
          | |- context [boto3_client ?env ?s] =>
              destruct (boto3_client env s) as [[]|?e] eqn:?Hclient
          | |- context [match SECRETS_ARN ?env with _ => _ end] =>
              destruct (SECRETS_ARN env) as [?arn|] eqn:?Harn
          | |- context [negb (truthy ?a)] =>
              destruct (truthy a) eqn:?Htruthy; cbn [negb]
          | |- context [get_secret_value ?env ?a] =>
              destruct (get_secret_value env a) as [?secret|?e] eqn:?Hsecret
          | |- context [secret_getitem ?s] =>
              destruct (secret_getitem s) as [?secret_string|?e] eqn:?Hstring
          | |- context [json_loads ?env ?s] =>
              destruct (json_loads env s) as [?credentials|?e] eqn:?Hjson
          | |- context [match getitem ?env ?c ?k with _ => _ end] =>
              destruct (getitem env c k) as [?v|?e] eqn:?Hitem
          | |- context [match requests_post ?env ?u ?p ?t with _ => _ end] =>
              destruct (requests_post env u p t) as [?response|?e] eqn:?Hpost
          | |- context [match raise_for_status ?r with _ => _ end] =>
              destruct (raise_for_status r) as [[]|?e] eqn:?Hstatus
          end);
  run_step.

(** How a call of [send_notification] can end: delivered, stopped for want
    of the secret reference, or failed with an exception that is turned
    into a string. *)
Lemma send_notification_cases env message :
  let run := send_notification env message in
  (result_of run = Returns SENT_MSG
   /\ exists url chat_id response,
        In (HttpPost url (telegram_payload chat_id message) 10) (trace_of run)
        /\ requests_post env url (telegram_payload chat_id message) 10 = Returns response
        /\ is_error_status response = false)
  \/ (result_of run = Returns NO_ARN_MSG /\ arn_configured env = false)
  \/ (exists e, result_of run = Returns (notify_error_msg e)).
Proof.
  unfold arn_configured. notify_paths.
  all: try (right; right; eexists; reflexivity).
  all: try (right; left; split; reflexivity).
  left. split; [reflexivity|]. do 3 eexists.
  split; [|split; [eassumption | apply raise_for_status_ok; assumption]].
  cbn [app]. right. right. right. left. reflexivity.
Qed.

Lemma send_notification_attempts env message :
  attempts (trace_of (send_notification env message)) = 1%nat.
Proof. notify_paths; reflexivity. Qed.

Lemma send_notification_returns env message :
  exists s, result_of (send_notification env message) = Returns s.
Proof.
  destruct (send_notification_cases env message) as [[H _]|[[H _]|[e H]]];
    eexists; exact H.
Qed.

(** C2: whatever the environment answers, [send_notification] returns a
    string and raises nothing, and which string is settled by the
    environment. Either the credentials resolve and the one POST of the
    message is answered without an error status: the message is delivered
    and the confirmation is returned. Or the secret reference is missing
    and the string that says so is returned, nothing being posted. Or a
    step fails, and the string returned is the marker U+274C,
    " Error sending notification: " and the text of the exception that the
    first failing step raised. *)
Theorem send_notification_never_raises env message :
  let run := send_notification env message in
  (exists token chat_id response,
      resolves env token chat_id
      /\ requests_post env (telegram_url_of env token)
           (telegram_payload chat_id message) 10 = Returns response
      /\ is_error_status response = false
      /\ result_of run = Returns SENT_MSG
      /\ filter is_post (trace_of run)
         = [HttpPost (telegram_url_of env token) (telegram_payload chat_id message) 10])
  \/ (boto3_client env (lit "secretsmanager") = Returns tt
      /\ arn_configured env = false
      /\ result_of run = Returns NO_ARN_MSG
      /\ filter is_post (trace_of run) = [])
  \/ (exists e,
      notification_failure env message e
      /\ result_of run
         = Returns (CROSS ++ lit " Error sending notification: " ++ exn_str e)
      /\ result_of run <> Returns SENT_MSG).
Proof.
  unfold arn_configured. notify_paths.
  all: try (destruct secret as [known|];
            cbn [secret_getitem] in Hstring; inversion Hstring; subst; clear Hstring).
  all: try (right; left; repeat split; reflexivity).
  all: try (right; right; eexists; split;
            [ first [ eapply fail_client; eassumption
                    | eapply fail_secret; eassumption
                    | eapply fail_secret_string; eassumption
                    | eapply fail_json; eassumption
                    | eapply fail_token; eassumption
                    | eapply fail_chat_id; eassumption
                    | eapply fail_post;
                      [unfold resolves; do 3 eexists; repeat split; eassumption
                      | eassumption]
                    | eapply fail_status;
                      [unfold resolves; do 3 eexists; repeat split; eassumption
                      | eassumption | eassumption] ]
            | split; [reflexivity | discriminate] ]).
  left. do 3 eexists.
  split; [unfold resolves; do 3 eexists; repeat split; eassumption|].
  split; [eassumption|].
  split; [apply raise_for_status_ok; assumption|].
  split; reflexivity.
Qed.

(** C6: without a configured secret reference ([SECRETS_ARN] absent or
    empty) [send_notification] returns a failure string at once and makes
    no network call: no secret is fetched and nothing is posted. *)
Theorem send_notification_without_secret_reference env message :
  arn_configured env = false ->
  let run := send_notification env message in
  exists s,
    result_of run = Returns s
    /\ startswith CROSS s = true
    /\ (s = NO_ARN_MSG
        \/ exists e, boto3_client env (lit "secretsmanager") = Raises e
                     /\ s = notify_error_msg e)
    /\ filter is_network_call (trace_of run) = [].
Proof.
  intros H. unfold arn_configured in H. cbv zeta. revert H. notify_paths.
  all: intros H; try discriminate H.
  all: eexists; split; [reflexivity|]; split; [reflexivity|]; split;
    [|reflexivity].
  all: try (left; reflexivity).
  all: right; eexists; split; reflexivity.
Qed.

Lemma send_notification_without_secret_reference_witness :
  SECRETS_ARN (Samples.env_post None 200) = None
  /\ exists s,
      result_of (send_notification (Samples.env_post None 200) (lit "OP-1 found")) = Returns s
      /\ startswith CROSS s = true
      /\ (s = NO_ARN_MSG
          \/ exists e, boto3_client (Samples.env_post None 200) (lit "secretsmanager")
                       = Raises e
                       /\ s = notify_error_msg e)
      /\ filter is_network_call
           (trace_of (send_notification (Samples.env_post None 200) (lit "OP-1 found")))
         = [].
Proof.
  split; [reflexivity|].
  apply (@send_notification_without_secret_reference (Samples.env_post None 200)
           (lit "OP-1 found") eq_refl).
Defined.

(** C8, as the code has it: a call that reaches delivery makes exactly one
    POST, to [https://api.telegram.org/bot<token>/sendMessage], with the
    body [{chat_id, text, parse_mode: "Markdown",
    disable_web_page_preview: false}] and timeout 10; it succeeds exactly
    when that POST is answered with a status that is not a 4xx or 5xx error
    status, so every 2xx answer is a success. *)
Theorem send_notification_posts_once env message arn secret_string credentials
        token chat_id :
  boto3_client env (lit "secretsmanager") = Returns tt ->
  SECRETS_ARN env = Some arn ->
  truthy arn = true ->
  get_secret_value env arn = Returns (Some secret_string) ->
  json_loads env secret_string = Returns credentials ->
  getitem env credentials (lit "TELEGRAM_TOKEN") = Returns token ->
  getitem env credentials (lit "TELEGRAM_CHAT_ID") = Returns chat_id ->
  let run := send_notification env message in
  let url := lit "https://api.telegram.org/bot" ++ format_value env token
             ++ lit "/sendMessage" in
  let payload := JDict [(lit "chat_id", chat_id);
                        (lit "text", JStr message);
                        (lit "parse_mode", JStr (lit "Markdown"));
                        (lit "disable_web_page_preview", JBool false)] in
  filter is_post (trace_of run) = [HttpPost url payload 10]
  /\ (result_of run = Returns SENT_MSG
      <-> exists response,
            requests_post env url payload 10 = Returns response
            /\ is_error_status response = false)
  /\ (forall response,
        requests_post env url payload 10 = Returns response ->
        is_2xx response = true ->
        result_of run = Returns SENT_MSG).
Proof.
  intros Hclient Harn Htruthy Hsecret Hjson Htoken Hchat. cbv zeta.
  fold (telegram_url_of env token). fold (telegram_payload chat_id message).
  unfold send_notification. cbv zeta. run_step.
  rewrite Hclient. run_step. rewrite Harn, Htruthy. cbn [negb]. run_step.
  rewrite Hsecret. run_step. cbn [secret_getitem]. run_step.
  rewrite Hjson. run_step. rewrite Htoken. run_step. rewrite Hchat. run_step.
  destruct (requests_post env (telegram_url_of env token)
              (telegram_payload chat_id message) 10) as [response|e] eqn:Hpost;
    run_step.
  - destruct (raise_for_status response) as [[]|e] eqn:Hstatus; run_step.
    + split; [reflexivity|]. split.
      * split; [|reflexivity]. intros _. exists response.
        split; [reflexivity | apply raise_for_status_ok, Hstatus].
      * reflexivity.
    + assert (Herr : is_error_status response = true).
      { destruct (is_error_status response) eqn:E; [reflexivity|].
        apply raise_for_status_ok in E. congruence. }
      split; [reflexivity|]. split.
      * split.
        -- intros H. discriminate H.
        -- intros [r [Hr Hok]]. inversion Hr; subst. congruence.
      * intros r Hr H2. inversion Hr; subst.
        apply is_2xx_not_error in H2. congruence.
  - split; [reflexivity|]. split.
    + split.
      * intros H. discriminate H.
      * intros [r [Hr _]]. discriminate Hr.
    + intros r Hr. discriminate Hr.
Qed.

Lemma send_notification_posts_once_witness :
  let env := Samples.env_post (Some Samples.arn0) 200 in
  let run := send_notification env (lit "OP-1 found") in
  filter is_post (trace_of run)
  = [HttpPost (lit "https://api.telegram.org/bot123:abc/sendMessage")
       (JDict [(lit "chat_id", JInt 42);
               (lit "text", JStr (lit "OP-1 found"));
               (lit "parse_mode", JStr (lit "Markdown"));
               (lit "disable_web_page_preview", JBool false)]) 10]
  /\ result_of run = Returns SENT_MSG.
Proof.
  cbv zeta.
  destruct (@send_notification_posts_once (Samples.env_post (Some Samples.arn0) 200)
              (lit "OP-1 found") Samples.arn0 (lit "{...}") Samples.credentials
              (JStr (lit "123:abc")) (JInt 42)
              eq_refl eq_refl eq_refl eq_refl eq_refl eq_refl eq_refl)
    as [Hpost [_ Hok]].
  split; [exact Hpost|].
  apply (Hok (Samples.response_with 200 "")); reflexivity.
Defined.

(** C8, as the spec states it, fails in its last part: a POST answered
    with 304, which is not a 2xx status, is a success for
    [send_notification]. *)
Lemma send_notification_succeeds_on_304 :
  result_of (send_notification (Samples.env_post (Some Samples.arn0) 304)
               (lit "OP-1 found"))
  = Returns SENT_MSG
  /\ requests_post (Samples.env_post (Some Samples.arn0) 304)
       (lit "https://api.telegram.org/bot123:abc/sendMessage")
       (telegram_payload (JInt 42) (lit "OP-1 found")) 10
     = Returns (Samples.response_with 304 "")
  /\ is_2xx (Samples.response_with 304 "") = false.
Proof. repeat split. Qed.

(* ================================================================== *)
(** * lambda_handler *)
(* ================================================================== *)

Lemma attempts_app a b : attempts (a ++ b) = (attempts a + attempts b)%nat.
Proof. unfold attempts. rewrite filter_app, length_app. reflexivity. Qed.

(** The controller's run, case by case on how the orchestrator ends, in
    terms of the one call of [send_notification] it makes. *)
Lemma lambda_handler_run w event context :
  let run := lambda_handler w event context in
  match orchestrator w with
  | Returns result =>
      result_of run = Returns {| statusCode := 200; body := success_body w result |}
      /\ exists before,
           trace_of run
           = before ++ trace_of (send_notification (notify_env w) COMPLETED_MSG)
           /\ attempts before = 0%nat
  | Raises e =>
      result_of run = Returns {| statusCode := 500; body := error_body w e |}
      /\ exists before,
           trace_of run
           = before ++ trace_of (send_notification (notify_env w) (FAILED_MSG e))
           /\ attempts before = 0%nat
  end.
Proof.
  unfold lambda_handler, orchestrator. cbv zeta.
  destruct (BedrockModel_new w) as [[]|e1]; [destruct (Agent_new w) as [[]|e2];
    [destruct (agent_call w) as [result|e3]|]|].
  - destruct (send_notification_returns (notify_env w) COMPLETED_MSG) as [s Hs].
    run_step. rewrite Hs. run_step. split; [reflexivity|].
    rewrite !app_nil_r. cbn [app].
    eexists [_; _; _; _; _]. split; reflexivity.
  - destruct (send_notification_returns (notify_env w) (FAILED_MSG e3)) as [s Hs].
    run_step. rewrite Hs. run_step. split; [reflexivity|].
    rewrite !app_nil_r. cbn [app].
    eexists [_; _; _; _]. split; reflexivity.
  - destruct (send_notification_returns (notify_env w) (FAILED_MSG e2)) as [s Hs].
    run_step. rewrite Hs. run_step. split; [reflexivity|].
    rewrite !app_nil_r. cbn [app].
    eexists [_; _]. split; reflexivity.
  - destruct (send_notification_returns (notify_env w) (FAILED_MSG e1)) as [s Hs].
    run_step. rewrite Hs. run_step. split; [reflexivity|].
    rewrite !app_nil_r. cbn [app].
    eexists [_; _]. split; reflexivity.
Qed.

(** C1: when the orchestrator returns, the controller returns status code
    200 and the JSON body with the success message and [str(result)]; when
    the orchestrator raises, the controller returns status code 500 and the
    JSON body with [str(e)]; in both cases the controller returns and no
    exception leaves it. *)
Theorem lambda_handler_exit_contract w event context :
  let run := lambda_handler w event context in
  (forall result,
      orchestrator w = Returns result ->
      result_of run
      = Returns {| statusCode := 200;
                   body := json_dumps w
                             (JDict [(lit "message",
                                      JStr (lit "OP-1 search completed successfully"));
                                     (lit "result", JStr result)]) |})
  /\ (forall e,
      orchestrator w = Raises e ->
      result_of run
      = Returns {| statusCode := 500;
                   body := json_dumps w (JDict [(lit "error", JStr (exn_str e))]) |})
  /\ (exists payload,
      result_of run = Returns payload
      /\ (statusCode payload = 200 \/ statusCode payload = 500)%Z).
Proof.
  pose proof (lambda_handler_run w event context) as H. cbv zeta in *.
  destruct (orchestrator w) as [result|e]; destruct H as [H _]; rewrite H.
  - split; [|split].
    + intros r E. inversion E. reflexivity.
    + intros e E. discriminate E.
    + eexists. split; [reflexivity | left; reflexivity].
  - split; [|split].
    + intros r E. discriminate E.
    + intros e' E. inversion E. reflexivity.
    + eexists. split; [reflexivity | right; reflexivity].
Qed.

Lemma lambda_handler_exit_contract_witness :
  result_of (lambda_handler
               (Samples.world (Returns (lit "no match")) (Samples.env_post None 200))
               JNull JNull)
  = Returns {| statusCode := 200; body := lit "{...}" |}
  /\ result_of (lambda_handler
                  (Samples.world (Raises Samples.runtime_error)
                     (Samples.env_post None 200))
                  JNull JNull)
     = Returns {| statusCode := 500; body := lit "{...}" |}.
Proof.
  split.
  - apply (proj1 (lambda_handler_exit_contract
                    (Samples.world (Returns (lit "no match")) (Samples.env_post None 200))
                    JNull JNull) (lit "no match")).
    reflexivity.
  - apply (proj1 (proj2 (lambda_handler_exit_contract
                           (Samples.world (Raises Samples.runtime_error)
                              (Samples.env_post None 200))
                           JNull JNull)) Samples.runtime_error).
    reflexivity.
Defined.

(** C4: in every run the controller calls [send_notification] exactly
    once, after everything else it does: with the "completed" message when
    the orchestrator returned, with the "error" message that carries
    [str(e)] when it raised [e]; and however that call ends, the payload
    the controller returns is the same. *)
Theorem lambda_handler_notifies_once w event context :
  let run := lambda_handler w event context in
  let message :=
    match orchestrator w with
    | Returns _ =>
        [9989%N] ++ lit " OP-1 Search Completed Successfully" ++ [LF; LF]
        ++ lit "Search finished without errors. Check logs for details about any matches found."
    | Raises e => [128680%N] ++ lit " OP-1 Finder Error: " ++ exn_str e
    end in
  (exists before,
      trace_of run = before ++ trace_of (send_notification (notify_env w) message)
      /\ attempts before = 0%nat)
  /\ attempts (trace_of run) = 1%nat
  /\ (forall env,
        result_of (lambda_handler (with_notify_env w env) event context)
        = result_of run)
  /\ (exists payload, result_of run = Returns payload).
Proof.
  cbv zeta.
  pose proof (lambda_handler_run w event context) as H. cbv zeta in H.
  assert (Hother : forall env,
             result_of (lambda_handler (with_notify_env w env) event context)
             = result_of (lambda_handler w event context)).
  { intros env.
    pose proof (lambda_handler_run (with_notify_env w env) event context) as H'.
    cbv zeta in H'.
    change (orchestrator (with_notify_env w env)) with (orchestrator w) in H'.
    destruct (orchestrator w) as [result|e];
      destruct H as [H _]; destruct H' as [H' _]; rewrite H, H'; reflexivity. }
  destruct (orchestrator w) as [result|e];
    destruct H as [Hres [before [Htrace Hbefore]]].
  - split; [exists before; split; assumption|].
    split; [|split; [exact Hother | eexists; exact Hres]].
    rewrite Htrace, attempts_app, Hbefore, send_notification_attempts. reflexivity.
  - split; [exists before; split; assumption|].
    split; [|split; [exact Hother | eexists; exact Hres]].
    rewrite Htrace, attempts_app, Hbefore, send_notification_attempts. reflexivity.
Qed.

(* ================================================================== *)
(** * Further properties of the text cleaning *)
(* ================================================================== *)

(** A text without line boundary is its own single line. *)
Lemma splitlines_from_single s : forall b cur,
  Forall not_linebreak s ->
  splitlines_from b cur s
  = match rev cur ++ s with [] => [] | line => [line] end.
Proof.
  induction s as [|c s IH]; intros b cur Hs; cbn [splitlines_from].
  - rewrite app_nil_r. destruct cur as [|a cur']; [reflexivity|].
    destruct (rev (a :: cur')) eqn:E; [|reflexivity].
    cbn [rev] in E. destruct (app_cons_not_nil _ _ _ (eq_sym E)).
  - inversion Hs as [|? ? Hc Hs']; subst. unfold not_linebreak in Hc.
    assert (HLF : (c =? LF)%N = false).
    { destruct (c =? LF)%N eqn:E; [|reflexivity].
      apply N.eqb_eq in E. subst. discriminate Hc. }
    rewrite HLF, andb_false_r, Hc, IH by assumption.
    cbn [rev]. rewrite <- app_assoc. reflexivity.
Qed.

Lemma lstrip_fixed s : head_space s = false -> lstrip s = s.
Proof. destruct s as [|c s]; cbn [head_space lstrip]; [reflexivity|]. now intros ->. Qed.

Lemma rstrip_fixed s : last_space s = false -> rstrip s = s.
Proof.
  induction s as [|c s IH]; [reflexivity|]. destruct s as [|d r].
  - cbn [last_space rstrip]. now intros ->.
  - rewrite last_space_cons. intros H. specialize (IH H).
    change (rstrip (c :: d :: r))
      with (match rstrip (d :: r) with
            | [] => if isspace c then [] else [c]
            | x :: r' => c :: x :: r'
            end).
    rewrite IH. reflexivity.
Qed.

Lemma split_2sp_single s : double_space s = false -> split_2sp s = [s].
Proof.
  induction s as [|c s IH]; [reflexivity|]. destruct s as [|d r]; [reflexivity|].
  rewrite double_space_eq. intros H. apply orb_false_iff in H. destruct H as [Hcd Hs].
  change (split_2sp (c :: d :: r))
    with (if (c =? SPACE)%N && (d =? SPACE)%N then [] :: split_2sp r
          else cons_head c (split_2sp (d :: r))).
  rewrite Hcd, IH by exact Hs. reflexivity.
Qed.

(** The cleaned text is empty or has the shape of a chunk. *)
Lemma clean_text_shape text : clean_text text = [] \/ good_chunk (clean_text text).
Proof.
  unfold clean_text. pose proof (chunks_good text) as H.
  destruct (filter truthy _) as [|x l]; [left; reflexivity|].
  right. apply join_good; [exact H | discriminate].
Qed.

Lemma clean_text_fixed s :
  good_chunk s -> has_linebreak s = false -> clean_text s = s.
Proof.
  intros [Hne [Hds [Hhead Hlast]]] Hlb.
  assert (Hstrip : strip s = s).
  { unfold strip. rewrite lstrip_fixed by exact Hhead. apply rstrip_fixed, Hlast. }
  unfold clean_text, splitlines.
  rewrite splitlines_from_single by (apply has_linebreak_Forall; exact Hlb).
  cbn [rev app]. destruct s as [|c s']; [congruence|].
  cbn [map flat_map]. rewrite Hstrip, split_2sp_single by exact Hds.
  cbn [map app filter]. rewrite Hstrip. reflexivity.
Qed.

(** X1: cleaning a text that is already cleaned changes nothing. *)
Theorem clean_text_idempotent text : clean_text (clean_text text) = clean_text text.
Proof.
  destruct (clean_text_shape text) as [E|Hgood].
  - rewrite E. reflexivity.
  - apply clean_text_fixed; [exact Hgood | apply clean_text_no_linebreak].
Qed.

(** ** Cleaning touches whitespace only *)

Lemma visible_chars_app a b : visible_chars (a ++ b) = visible_chars a ++ visible_chars b.
Proof. apply filter_app. Qed.

Lemma visible_chars_space c s : isspace c = true -> visible_chars (c :: s) = visible_chars s.
Proof. intros H. unfold visible_chars. cbn [filter]. rewrite H. reflexivity. Qed.

Lemma visible_chars_lstrip s : visible_chars (lstrip s) = visible_chars s.
Proof.
  induction s as [|c s IH]; [reflexivity|]. cbn [lstrip].
  destruct (isspace c) eqn:E; [|reflexivity].
  rewrite visible_chars_space by exact E. exact IH.
Qed.

Lemma visible_chars_rstrip s : visible_chars (rstrip s) = visible_chars s.
Proof.
  induction s as [|c s IH]; [reflexivity|]. cbn [rstrip].
  destruct (rstrip s) as [|d r].
  - destruct (isspace c) eqn:E.
    + rewrite visible_chars_space by exact E. exact IH.
    + unfold visible_chars in *. cbn [filter]. rewrite E. cbn [negb].
      rewrite <- IH. reflexivity.
  - unfold visible_chars in *. cbn [filter] in *. rewrite IH. reflexivity.
Qed.

Lemma visible_chars_strip s : visible_chars (strip s) = visible_chars s.
Proof. unfold strip. rewrite visible_chars_rstrip. apply visible_chars_lstrip. Qed.

Lemma visible_chars_splitlines s : forall b cur,
  concat (map visible_chars (splitlines_from b cur s))
  = visible_chars (rev cur) ++ visible_chars s.
Proof.
  induction s as [|c s IH]; intros b cur; cbn [splitlines_from].
  - destruct cur as [|a cur']; [reflexivity|].
    cbn [map concat]. reflexivity.
  - destruct (b && (c =? LF)%N) eqn:Hskip.
    + apply andb_true_iff in Hskip. destruct Hskip as [_ Hc].
      apply N.eqb_eq in Hc. subst c.
      rewrite IH, (@visible_chars_space LF s) by reflexivity. reflexivity.
    + destruct (is_linebreak c) eqn:Hc.
      * cbn [map concat]. rewrite IH.
        rewrite visible_chars_space by (apply linebreak_isspace; exact Hc). reflexivity.
      * rewrite IH. cbn [rev]. rewrite visible_chars_app, <- app_assoc.
        rewrite <- (visible_chars_app [c] s). reflexivity.
Qed.

Lemma visible_chars_cons_head c l :
  concat (map visible_chars (cons_head c l))
  = visible_chars [c] ++ concat (map visible_chars l).
Proof.
  destruct l as [|p ps]; cbn [cons_head map concat].
  - reflexivity.
  - change (c :: p) with ([c] ++ p). rewrite visible_chars_app, app_assoc. reflexivity.
Qed.

Lemma visible_chars_split_2sp s :
  concat (map visible_chars (split_2sp s)) = visible_chars s.
Proof.
  enough (H : concat (map visible_chars (split_2sp s)) = visible_chars s
              /\ forall c, concat (map visible_chars (split_2sp (c :: s)))
                           = visible_chars (c :: s))
    by apply H.
  induction s as [|d r [IH1 IH2]].
  - split; [reflexivity|]. intros c. cbn [split_2sp map concat]. apply app_nil_r.
  - split; [apply IH2|]. intros c.
    change (split_2sp (c :: d :: r))
      with (if (c =? SPACE)%N && (d =? SPACE)%N then [] :: split_2sp r
            else cons_head c (split_2sp (d :: r))).
    destruct ((c =? SPACE)%N && (d =? SPACE)%N) eqn:Hcd.
    + apply andb_true_iff in Hcd. destruct Hcd as [Hc Hd].
      apply N.eqb_eq in Hc, Hd. subst c d.
      cbn [map concat]. rewrite IH1. reflexivity.
    + rewrite visible_chars_cons_head, (IH2 d).
      change (c :: d :: r) with ([c] ++ d :: r). rewrite visible_chars_app. reflexivity.
Qed.

Lemma visible_chars_join l :
  visible_chars (join [SPACE] l) = concat (map visible_chars l).
Proof.
  induction l as [|x l IH]; [reflexivity|]. cbn [join map concat].
  destruct l as [|y l']; [symmetry; apply app_nil_r|].
  rewrite !visible_chars_app, IH. reflexivity.
Qed.

Lemma visible_chars_filter_truthy l :
  concat (map visible_chars (filter truthy l)) = concat (map visible_chars l).
Proof.
  induction l as [|x l IH]; [reflexivity|]. cbn [filter map concat].
  destruct x as [|c x']; cbn [truthy map concat]; rewrite IH; reflexivity.
Qed.

Lemma visible_chars_chunks lines :
  concat (map visible_chars
            (flat_map (fun line => map strip (split_2sp line)) (map strip lines)))
  = concat (map visible_chars lines).
Proof.
  induction lines as [|line lines IH]; [reflexivity|].
  cbn [map flat_map concat]. rewrite map_app, concat_app, IH. f_equal.
  rewrite <- (visible_chars_strip line), <- (visible_chars_split_2sp (strip line)).
  generalize (split_2sp (strip line)) as pieces.
  induction pieces as [|p ps IHp]; [reflexivity|].
  cbn [map concat]. rewrite visible_chars_strip, IHp. reflexivity.
Qed.

Lemma clean_text_visible_chars text :
  visible_chars (clean_text text) = visible_chars text.
Proof.
  unfold clean_text.
  rewrite visible_chars_join, visible_chars_filter_truthy, visible_chars_chunks.
  unfold splitlines. rewrite visible_chars_splitlines. reflexivity.
Qed.

(** X2: the characters of the returned text that are not whitespace are
    those of the document text, in the same order, up to the cut at 8000
    characters: cleaning adds, drops and moves whitespace only. *)
Theorem browse_website_keeps_visible_chars env url response soup :
  requests_get env url BROWSE_HEADERS 15 = Returns response ->
  raise_for_status response = Returns tt ->
  BeautifulSoup env (content response) = Returns soup ->
  let document_text := get_text (remove_scripts soup) in
  exists text cut_off,
    result_of (browse_website env url) = Returns text
    /\ visible_chars document_text = visible_chars text ++ cut_off
    /\ ((length (clean_text document_text) <= MAX_LEN)%nat -> cut_off = []).
Proof.
  intros Hget Hstatus Hsoup document_text.
  rewrite (browse_website_success _ _ Hget Hstatus Hsoup).
  unfold extracted_text. fold document_text.
  rewrite <- (clean_text_visible_chars document_text).
  unfold truncated. destruct (MAX_LEN <? length (clean_text document_text))%nat eqn:E.
  - exists (firstn MAX_LEN (clean_text document_text)),
           (visible_chars (skipn MAX_LEN (clean_text document_text))).
    split; [reflexivity|]. split.
    + rewrite <- visible_chars_app, firstn_skipn. reflexivity.
    + intros H. apply Nat.ltb_lt in E. lia.
  - exists (clean_text document_text), []. split; [reflexivity|].
    split; [symmetry; apply app_nil_r | reflexivity].
Qed.

Lemma browse_website_keeps_visible_chars_witness :
  exists text cut_off,
    result_of (browse_website (Samples.env_page Samples.soup_scripts) Samples.url0)
    = Returns text
    /\ visible_chars (get_text (remove_scripts Samples.soup_scripts))
       = visible_chars text ++ cut_off
    /\ ((length (clean_text (get_text (remove_scripts Samples.soup_scripts))) <= MAX_LEN)%nat
        -> cut_off = []).
Proof.
  apply (@browse_website_keeps_visible_chars (Samples.env_page Samples.soup_scripts)
           Samples.url0 (Samples.response_with 200 "OK") Samples.soup_scripts
           eq_refl eq_refl eq_refl).
Defined.

(** ** Blank texts, trimming and length *)

Lemma lstrip_blank s : Forall (fun c => isspace c = true) s -> lstrip s = [].
Proof.
  induction 1 as [|c s Hc Hs IH]; [reflexivity|]. cbn [lstrip]. rewrite Hc. exact IH.
Qed.

Lemma splitlines_from_blank s : forall b cur,
  Forall (fun c => isspace c = true) cur ->
  Forall (fun c => isspace c = true) s ->
  Forall (Forall (fun c => isspace c = true)) (splitlines_from b cur s).
Proof.
  induction s as [|c s IH]; intros b cur Hcur Hs; cbn [splitlines_from].
  - destruct cur as [|a cur']; [constructor|].
    constructor; [|constructor]. apply Forall_rev. exact Hcur.
  - inversion Hs; subst.
    destruct (b && (c =? LF)%N); [auto|].
    destruct (is_linebreak c).
    + constructor; [now apply Forall_rev | apply IH; [constructor | assumption]].
    + apply IH; [constructor|]; assumption.
Qed.

(** X3: a text of whitespace only (spaces, tabs, line breaks, no-break
    spaces) is cleaned to the empty string. *)
Theorem clean_text_blank text :
  Forall (fun c => isspace c = true) text -> clean_text text = [].
Proof.
  intros H. unfold clean_text.
  assert (Hlines : Forall (fun line => strip line = []) (splitlines text)).
  { pose proof (@splitlines_from_blank text false [] (Forall_nil _) H) as Hl.
    fold (splitlines text) in Hl.
    induction Hl as [|line lines Hline Hl IH]; constructor; [|exact IH].
    unfold strip. rewrite lstrip_blank by exact Hline. reflexivity. }
  induction Hlines as [|line lines Hline Hl IH]; [reflexivity|].
  cbn [map flat_map]. rewrite Hline. cbn [split_2sp map app filter strip lstrip rstrip truthy].
  exact IH.
Qed.

Lemma clean_text_blank_witness :
  Forall (fun c => isspace c = true) MoreSamples.blank_text
  /\ clean_text MoreSamples.blank_text = [].
Proof.
  assert (H : Forall (fun c => isspace c = true) MoreSamples.blank_text)
    by (repeat constructor).
  split; [exact H | exact (clean_text_blank H)].
Defined.

Lemma head_space_firstn n s : head_space s = false -> head_space (firstn n s) = false.
Proof. destruct n, s; auto. Qed.

(** X4: the text returned for a fetched page never begins with a
    whitespace character, and when it was not cut at 8000 characters it
    does not end with one either. *)
Theorem browse_website_text_is_trimmed env url response soup :
  requests_get env url BROWSE_HEADERS 15 = Returns response ->
  raise_for_status response = Returns tt ->
  BeautifulSoup env (content response) = Returns soup ->
  exists text,
    result_of (browse_website env url) = Returns text
    /\ head_space text = false
    /\ ((length (clean_text (get_text (remove_scripts soup))) <= MAX_LEN)%nat ->
        last_space text = false).
Proof.
  intros Hget Hstatus Hsoup.
  rewrite (browse_website_success _ _ Hget Hstatus Hsoup).
  eexists. split; [reflexivity|]. unfold extracted_text.
  set (cleaned := clean_text (get_text (remove_scripts soup))).
  assert (Hshape : head_space cleaned = false /\ last_space cleaned = false).
  { destruct (clean_text_shape (get_text (remove_scripts soup))) as [E|[_ [_ [Hh Hl]]]].
    - subst cleaned. rewrite E. split; reflexivity.
    - split; assumption. }
  destruct Hshape as [Hh Hl]. split.
  - unfold truncated. destruct (MAX_LEN <? length cleaned)%nat;
      [apply head_space_firstn|]; exact Hh.
  - intros Hshort. rewrite truncated_short by exact Hshort. exact Hl.
Qed.

Lemma browse_website_text_is_trimmed_witness :
  exists text,
    result_of (browse_website (Samples.env_page MoreSamples.soup_padded) Samples.url0)
    = Returns text
    /\ head_space text = false
    /\ ((length (clean_text (get_text (remove_scripts MoreSamples.soup_padded)))
         <= MAX_LEN)%nat ->
        last_space text = false).
Proof.
  apply (@browse_website_text_is_trimmed (Samples.env_page MoreSamples.soup_padded)
           Samples.url0 (Samples.response_with 200 "OK") MoreSamples.soup_padded
           eq_refl eq_refl eq_refl).
Defined.

Lemma lstrip_length s : (length (lstrip s) <= length s)%nat.
Proof.
  induction s as [|c s IH]; [reflexivity|]. cbn [lstrip].
  destruct (isspace c); cbn [length]; lia.
Qed.

Lemma rstrip_length s : (length (rstrip s) <= length s)%nat.
Proof.
  induction s as [|c s IH]; [reflexivity|]. cbn [rstrip].
  destruct (rstrip s) as [|d r]; [destruct (isspace c)|]; cbn [length] in *; lia.
Qed.

Lemma strip_length s : (length (strip s) <= length s)%nat.
Proof.
  unfold strip. pose proof (rstrip_length (lstrip s)). pose proof (lstrip_length s). lia.
Qed.

Lemma weight_cons x l : weight (x :: l) = (S (length x) + weight l)%nat.
Proof. reflexivity. Qed.

Lemma weight_app a b : weight (a ++ b) = (weight a + weight b)%nat.
Proof. unfold weight. rewrite map_app, list_sum_app. reflexivity. Qed.

Lemma weight_splitlines s : forall b cur,
  (weight (splitlines_from b cur s) <= length cur + length s + 1)%nat.
Proof.
  induction s as [|c s IH]; intros b cur; cbn [splitlines_from].
  - destruct cur as [|a cur']; [cbn; lia|].
    rewrite weight_cons, length_rev. cbn. lia.
  - destruct (b && (c =? LF)%N).
    + specialize (IH false cur). cbn [length]. lia.
    + destruct (is_linebreak c).
      * rewrite weight_cons, length_rev. specialize (IH (c =? CR)%N []).
        cbn [length] in *. lia.
      * specialize (IH false (c :: cur)). cbn [length] in *. lia.
Qed.

Lemma weight_split_2sp s : (weight (split_2sp s) <= S (length s))%nat.
Proof.
  enough (H : (weight (split_2sp s) <= S (length s))%nat
              /\ forall c, (weight (split_2sp (c :: s)) <= S (length (c :: s)))%nat)
    by apply H.
  induction s as [|d r [IH1 IH2]].
  - split; [|intros c]; cbn; lia.
  - split; [apply IH2|]. intros c.
    change (split_2sp (c :: d :: r))
      with (if (c =? SPACE)%N && (d =? SPACE)%N then [] :: split_2sp r
            else cons_head c (split_2sp (d :: r))).
    destruct ((c =? SPACE)%N && (d =? SPACE)%N).
    + rewrite weight_cons. cbn [length] in *. lia.
    + specialize (IH2 d).
      destruct (split_2sp_head (d :: r)) as [p [ps [E _]]].
      rewrite E in IH2 |- *. cbn [cons_head]. rewrite weight_cons in *.
      cbn [length] in *. lia.
Qed.

Lemma weight_map_strip l : (weight (map strip l) <= weight l)%nat.
Proof.
  induction l as [|x l IH]; [reflexivity|]. cbn [map]. rewrite !weight_cons.
  pose proof (strip_length x). lia.
Qed.

Lemma weight_filter (p : str -> bool) l : (weight (filter p l) <= weight l)%nat.
Proof.
  induction l as [|x l IH]; [reflexivity|]. cbn [filter].
  destruct (p x); rewrite ?weight_cons; lia.
Qed.

Lemma weight_chunks lines :
  (weight (flat_map (fun line => map strip (split_2sp line)) lines) <= weight lines)%nat.
Proof.
  induction lines as [|line lines IH]; [reflexivity|].
  cbn [flat_map]. rewrite weight_app, weight_cons.
  pose proof (weight_map_strip (split_2sp line)).
  pose proof (weight_split_2sp line). lia.
Qed.

Lemma join_length l : l <> [] -> (S (length (join [SPACE] l)) <= weight l)%nat.
Proof.
  induction l as [|x l IH]; [congruence|]. intros _. cbn [join].
  destruct l as [|y l'].
  - rewrite weight_cons. lia.
  - rewrite !length_app, (weight_cons x). cbn [length].
    assert (y :: l' <> []) by discriminate. specialize (IH H). lia.
Qed.

(** Cleaning never makes a text longer. *)
Lemma clean_text_length text : (length (clean_text text) <= length text)%nat.
Proof.
  unfold clean_text.
  pose proof (weight_filter truthy
                (flat_map (fun line => map strip (split_2sp line))
                          (map strip (splitlines text)))) as H1.
  pose proof (weight_chunks (map strip (splitlines text))) as H2.
  pose proof (weight_map_strip (splitlines text)) as H3.
  pose proof (weight_splitlines text false []) as H4.
  fold (splitlines text) in H4. cbn [length] in H4.
  set (kept := filter truthy _) in *.
  destruct kept as [|x l]; [cbn; lia|].
  assert (Hne : x :: l <> []) by discriminate.
  pose proof (join_length Hne). lia.
Qed.

(** X5: the text returned for a fetched page is never longer than the text
    of the document, and a document text of at most 8000 characters is
    returned cleaned but uncut. *)
Theorem browse_website_text_not_longer env url response soup :
  requests_get env url BROWSE_HEADERS 15 = Returns response ->
  raise_for_status response = Returns tt ->
  BeautifulSoup env (content response) = Returns soup ->
  let document_text := get_text (remove_scripts soup) in
  exists text,
    result_of (browse_website env url) = Returns text
    /\ (length text <= length document_text)%nat
    /\ ((length document_text <= MAX_LEN)%nat -> text = clean_text document_text).
Proof.
  intros Hget Hstatus Hsoup document_text.
  rewrite (browse_website_success _ _ Hget Hstatus Hsoup).
  eexists. split; [reflexivity|]. unfold extracted_text. fold document_text.
  pose proof (clean_text_length document_text) as Hlen. split.
  - unfold truncated. destruct (MAX_LEN <? length (clean_text document_text))%nat;
      [rewrite length_firstn|]; lia.
  - intros Hshort. apply truncated_short. lia.
Qed.

Lemma browse_website_text_not_longer_witness :
  exists text,
    result_of (browse_website (Samples.env_page MoreSamples.soup_padded) Samples.url0)
    = Returns text
    /\ (length text <= length (get_text (remove_scripts MoreSamples.soup_padded)))%nat
    /\ ((length (get_text (remove_scripts MoreSamples.soup_padded)) <= MAX_LEN)%nat ->
        text = clean_text (get_text (remove_scripts MoreSamples.soup_padded))).
Proof.
  apply (@browse_website_text_not_longer (Samples.env_page MoreSamples.soup_padded)
           Samples.url0 (Samples.response_with 200 "OK") MoreSamples.soup_padded
           eq_refl eq_refl eq_refl).
Defined.

(* ================================================================== *)
(** * Further properties of browse_website *)
(* ================================================================== *)

Lemma find_in_after_removal names ids e :
  consistent ids names e = true ->
  flat_map (find_in names) (if in_ids ids e then [] else [remove_all ids e]) = [].
Proof.
  induction e as [j n cs IH|s|s] using PageElement_tree_ind; intros Hc.
  2: { rewrite in_ids_string. reflexivity. }
  2: { rewrite in_ids_comment. reflexivity. }
  cbn [consistent] in Hc. apply andb_true_iff in Hc. destruct Hc as [Hroot Hcs].
  apply eqb_prop in Hroot.
  destruct (in_ids ids (Tag j n cs)); [reflexivity|].
  cbn [flat_map remove_all find_in]. rewrite <- Hroot, app_nil_r. cbn [app].
  induction IH as [|c cs Hc Hcs' IHcs]; [reflexivity|].
  cbn [forallb] in Hcs. apply andb_true_iff in Hcs. destruct Hcs as [H1 H2].
  cbn [flat_map]. rewrite flat_map_app, IHcs by exact H2.
  rewrite Hc by exact H1. reflexivity.
Qed.

(** X6: after the loop over [soup(["script", "style"])] no script or style
    element is left anywhere in the document. *)
Theorem remove_scripts_leaves_none soup :
  NoDup (tag_idents soup) ->
  find_all SCRIPT_STYLE (remove_scripts soup) = [].
Proof.
  intros Hnd. unfold remove_scripts. rewrite decompose_loop.
  destruct soup as [j n cs|s|s]; [|reflexivity|reflexivity].
  cbn [find_all remove_all]. cbn [tag_idents] in Hnd.
  apply NoDup_cons_iff in Hnd. destruct Hnd as [_ Hnd].
  assert (Hc : forallb (consistent (flat_map (find_in SCRIPT_STYLE) cs) SCRIPT_STYLE) cs
               = true).
  { apply consistent_forest; [|exact Hnd|split; auto].
    apply Forall_forall. intros e _ ids. apply consistent_tree. }
  revert Hc. generalize (flat_map (find_in SCRIPT_STYLE) cs) as ids. intros ids.
  clear Hnd. induction cs as [|c cs IH]; intros Hc; [reflexivity|].
  cbn [forallb] in Hc. apply andb_true_iff in Hc. destruct Hc as [H1 H2].
  cbn [flat_map]. rewrite flat_map_app, (IH H2).
  rewrite (find_in_after_removal _ _ _ H1). reflexivity.
Qed.

Lemma remove_scripts_leaves_none_witness :
  NoDup (tag_idents Samples.soup_scripts)
  /\ find_all SCRIPT_STYLE Samples.soup_scripts = [2; 4]%nat
  /\ find_all SCRIPT_STYLE (remove_scripts Samples.soup_scripts) = [].
Proof.
  assert (Hnd : NoDup (tag_idents Samples.soup_scripts)).
  { vm_compute. repeat (constructor; [simpl; intuition discriminate|]). constructor. }
  split; [exact Hnd|]. split; [reflexivity|].
  exact (@remove_scripts_leaves_none Samples.soup_scripts Hnd).
Defined.

(** X7: every call of [browse_website] makes exactly one HTTP GET, of the
    URL it was given, with the browser's User-Agent header and timeout 15,
    however the call ends: there is no retry and no second request. *)
Theorem browse_website_one_get env url :
  filter is_get (trace_of (browse_website env url))
  = [HttpGet url [(lit "User-Agent", USER_AGENT)] 15].
Proof.
  unfold browse_website. cbv zeta. step_trace.
  destruct (requests_get env url [(lit "User-Agent", USER_AGENT)] 15) as [response|e].
  2: { step_trace. destruct (is_RequestException e); reflexivity. }
  step_trace.
  destruct (raise_for_status response) as [[]|e] eqn:Hs.
  2: { step_trace. destruct (is_RequestException e); reflexivity. }
  step_trace.
  destruct (BeautifulSoup env (content response)) as [soup|e].
  2: { step_trace. destruct (is_RequestException e); reflexivity. }
  step_trace. rewrite truncate_result, truncate_trace. step_trace.
  destruct (MAX_LEN <? _)%nat; reflexivity.
Qed.

(** X8: when the fetch fails with a request error or an HTTP error
    status, the call does nothing but log the URL, make the GET and log, at
    ERROR level, the very string it returns: the page is not parsed. *)
Theorem browse_website_failure_trace env url e :
  (requests_get env url BROWSE_HEADERS 15 = Raises e
   /\ is_RequestException e = true)
  \/ (exists response,
         requests_get env url BROWSE_HEADERS 15 = Returns response
         /\ raise_for_status response = Raises e) ->
  let message := CROSS ++ lit " Error browsing " ++ url ++ lit ": " ++ exn_str e in
  browse_website env url
  = ([Log INFO ([127760%N] ++ lit " Browsing website: " ++ url);
      HttpGet url BROWSE_HEADERS 15;
      Log ERROR message],
     Returns message).
Proof.
  intros H. cbv zeta. unfold browse_website. cbv zeta. fold BROWSE_HEADERS.
  destruct H as [[Hget He] | [response [Hget Hs]]]; rewrite Hget.
  - cbn. rewrite He. reflexivity.
  - cbn. rewrite Hs. cbn. rewrite (raise_for_status_class _ Hs). reflexivity.
Qed.

Lemma browse_website_failure_trace_witness :
  browse_website Samples.env_unreachable Samples.url0
  = ([Log INFO ([127760%N] ++ lit " Browsing website: " ++ Samples.url0);
      HttpGet Samples.url0 BROWSE_HEADERS 15;
      Log ERROR (CROSS ++ lit " Error browsing " ++ Samples.url0 ++ lit ": "
                 ++ lit "Max retries exceeded")],
     Returns (CROSS ++ lit " Error browsing " ++ Samples.url0 ++ lit ": "
              ++ lit "Max retries exceeded"))
  /\ result_of (browse_website Samples.env_404 Samples.url0)
     = Returns (CROSS ++ lit " Error browsing " ++ Samples.url0 ++ lit ": "
                ++ lit "404 Client Error: Not Found for url: " ++ Samples.url0).
Proof.
  split.
  - apply (@browse_website_failure_trace Samples.env_unreachable Samples.url0
             Samples.connection_error).
    left. split; reflexivity.
  - rewrite (@browse_website_failure_trace Samples.env_404 Samples.url0
               (Exn HTTPError (lit "404 Client Error: Not Found for url: "
                               ++ Samples.url0))).
    + reflexivity.
    + right. exists (Samples.response_with 404 "Not Found"). split; reflexivity.
Defined.

(* ================================================================== *)
(** * Further properties of send_notification *)
(* ================================================================== *)

(** The whole run of [send_notification] once the secret is resolved and
    parsed. *)
Lemma send_notification_with_credentials env message arn secret_string credentials :
  boto3_client env (lit "secretsmanager") = Returns tt ->
  SECRETS_ARN env = Some arn ->
  truthy arn = true ->
  get_secret_value env arn = Returns (Some secret_string) ->
  json_loads env secret_string = Returns credentials ->
  let before := [Log INFO ([128241%N] ++ lit " Sending notification...");
                 Boto3Client (lit "secretsmanager");
                 GetSecretValue arn] in
  let failed e := Log ERROR (notify_error_msg e) in
  send_notification env message
  = match getitem env credentials (lit "TELEGRAM_TOKEN") with
    | Raises e => (before ++ [failed e], Returns (notify_error_msg e))
    | Returns token =>
        match getitem env credentials (lit "TELEGRAM_CHAT_ID") with
        | Raises e => (before ++ [failed e], Returns (notify_error_msg e))
        | Returns chat_id =>
            let post := HttpPost (telegram_url_of env token)
                                 (telegram_payload chat_id message) 10 in
            match requests_post env (telegram_url_of env token)
                    (telegram_payload chat_id message) 10 with
            | Raises e => (before ++ [post; failed e], Returns (notify_error_msg e))
            | Returns response =>
                match raise_for_status response with
                | Raises e => (before ++ [post; failed e], Returns (notify_error_msg e))
                | Returns _ =>
                    (before ++ [post;
                                Log INFO ([9989%N] ++ lit " Notification sent successfully")],
                     Returns SENT_MSG)
                end
            end
        end
    end.
Proof.
  intros Hclient Harn Htruthy Hsecret Hjson. cbv zeta.
  unfold send_notification. cbv zeta.
  rewrite Hclient, Harn, Htruthy, Hsecret. cbn [negb].
  unfold bind at 1, log at 1. cbv iota beta.
  unfold try_except, bind, call, pure_call, log, ret, is_Exception.
  cbn [secret_getitem]. rewrite Hjson. cbv iota beta.
  destruct (getitem env credentials (lit "TELEGRAM_TOKEN")) as [token|e];
    [|reflexivity].
  cbv iota beta.
  destruct (getitem env credentials (lit "TELEGRAM_CHAT_ID")) as [chat_id|e];
    [|reflexivity].
  cbv iota beta.
  destruct (requests_post env (telegram_url_of env token)
              (telegram_payload chat_id message) 10) as [response|e];
    [|reflexivity].
  cbv iota beta.
  destruct (raise_for_status response) as [[]|e]; reflexivity.
Qed.

(** X9: when the secret parses to an object without the key
    [TELEGRAM_TOKEN], or with it but without [TELEGRAM_CHAT_ID], the call
    returns the failure string that names the missing key and posts
    nothing; the token is looked up first. *)
Theorem send_notification_missing_credential env message arn secret_string d :
  boto3_client env (lit "secretsmanager") = Returns tt ->
  SECRETS_ARN env = Some arn ->
  truthy arn = true ->
  get_secret_value env arn = Returns (Some secret_string) ->
  json_loads env secret_string = Returns (JDict d) ->
  let run := send_notification env message in
  (dict_find d (lit "TELEGRAM_TOKEN") = None ->
     result_of run
     = Returns (CROSS ++ lit " Error sending notification: 'TELEGRAM_TOKEN'")
     /\ filter is_post (trace_of run) = [])
  /\ (dict_find d (lit "TELEGRAM_TOKEN") <> None ->
      dict_find d (lit "TELEGRAM_CHAT_ID") = None ->
      result_of run
      = Returns (CROSS ++ lit " Error sending notification: 'TELEGRAM_CHAT_ID'")
      /\ filter is_post (trace_of run) = []).
Proof.
  intros Hclient Harn Htruthy Hsecret Hjson. cbv zeta.
  rewrite (@send_notification_with_credentials env message _ _ _ Hclient Harn Htruthy Hsecret Hjson).
  unfold dict_find. cbn [getitem]. split.
  - intros ->. split; reflexivity.
  - intros Htoken ->.
    destruct (find _ d) as [kv|]; [|congruence]. split; reflexivity.
Qed.

Lemma send_notification_missing_credential_witness :
  result_of (send_notification (MoreSamples.env_credentials (JDict [])) (lit "OP-1 found"))
  = Returns (CROSS ++ lit " Error sending notification: 'TELEGRAM_TOKEN'")
  /\ result_of (send_notification (MoreSamples.env_credentials MoreSamples.only_token)
                  (lit "OP-1 found"))
     = Returns (CROSS ++ lit " Error sending notification: 'TELEGRAM_CHAT_ID'")
  /\ filter is_post
       (trace_of (send_notification (MoreSamples.env_credentials MoreSamples.only_token)
                    (lit "OP-1 found")))
     = [].
Proof.
  split.
  - apply (proj1 (@send_notification_missing_credential
                    (MoreSamples.env_credentials (JDict [])) (lit "OP-1 found")
                    Samples.arn0 (lit "{...}") []
                    eq_refl eq_refl eq_refl eq_refl eq_refl)).
    reflexivity.
  - apply (proj2 (@send_notification_missing_credential
                    (MoreSamples.env_credentials MoreSamples.only_token)
                    (lit "OP-1 found") Samples.arn0 (lit "{...}")
                    [(lit "TELEGRAM_TOKEN", JStr (lit "123:abc"))]
                    eq_refl eq_refl eq_refl eq_refl eq_refl)).
    + discriminate.
    + reflexivity.
Defined.

(** X10: when the secret store answers without a ['SecretString'] entry,
    the call returns the failure string that names the missing entry;
    nothing is parsed and nothing is posted: the fetch of the secret is
    its only network call. *)
Theorem send_notification_no_secret_string env message arn :
  boto3_client env (lit "secretsmanager") = Returns tt ->
  SECRETS_ARN env = Some arn ->
  truthy arn = true ->
  get_secret_value env arn = Returns None ->
  let run := send_notification env message in
  result_of run = Returns (CROSS ++ lit " Error sending notification: 'SecretString'")
  /\ filter is_network_call (trace_of run) = [GetSecretValue arn].
Proof.
  intros Hclient Harn Htruthy Hsecret. cbv zeta.
  unfold send_notification. cbv zeta. run_step.
  rewrite Hclient. run_step. rewrite Harn, Htruthy. cbn [negb]. run_step.
  rewrite Hsecret. run_step. cbn [secret_getitem]. run_step.
  split; reflexivity.
Qed.

Lemma send_notification_no_secret_string_witness :
  result_of (send_notification MoreSamples.env_binary_secret (lit "OP-1 found"))
  = Returns (CROSS ++ lit " Error sending notification: 'SecretString'")
  /\ filter is_network_call
       (trace_of (send_notification MoreSamples.env_binary_secret (lit "OP-1 found")))
     = [GetSecretValue Samples.arn0].
Proof.
  apply (@send_notification_no_secret_string MoreSamples.env_binary_secret
           (lit "OP-1 found") Samples.arn0 eq_refl eq_refl eq_refl eq_refl).
Defined.

(** X11: [send_notification] posts only to the Telegram endpoint and only
    with resolved credentials: every POST in its trace has the sendMessage
    URL of the token, the body built from the chat id and the message, and
    timeout 10, and it comes after the client was built, the secret was
    fetched and parsed, and both keys were found. *)
Theorem send_notification_posts_only_with_credentials env message url body timeout :
  In (HttpPost url body timeout) (trace_of (send_notification env message)) ->
  exists arn secret_string credentials token chat_id,
    boto3_client env (lit "secretsmanager") = Returns tt
    /\ SECRETS_ARN env = Some arn
    /\ truthy arn = true
    /\ get_secret_value env arn = Returns (Some secret_string)
    /\ json_loads env secret_string = Returns credentials
    /\ getitem env credentials (lit "TELEGRAM_TOKEN") = Returns token
    /\ getitem env credentials (lit "TELEGRAM_CHAT_ID") = Returns chat_id
    /\ url = lit "https://api.telegram.org/bot" ++ format_value env token
             ++ lit "/sendMessage"
    /\ body = telegram_payload chat_id message
    /\ timeout = 10%Z.
Proof.
  notify_paths; cbn [app In]; intros H;
    repeat (destruct H as [H|H]; try discriminate H); try contradiction.
  all: inversion H; subst; clear H.
  all: destruct secret as [s|]; cbn [secret_getitem] in *; [|discriminate].
  all: match goal with Hs : Returns _ = Returns _ |- _ => inversion Hs; subst end.
  all: do 5 eexists; repeat (split; [eassumption || reflexivity|]); reflexivity.
Qed.

Lemma send_notification_posts_only_with_credentials_witness :
  exists arn secret_string credentials token chat_id,
    boto3_client (Samples.env_post (Some Samples.arn0) 200) (lit "secretsmanager")
    = Returns tt
    /\ SECRETS_ARN (Samples.env_post (Some Samples.arn0) 200) = Some arn
    /\ truthy arn = true
    /\ get_secret_value (Samples.env_post (Some Samples.arn0) 200) arn
       = Returns (Some secret_string)
    /\ json_loads (Samples.env_post (Some Samples.arn0) 200) secret_string
       = Returns credentials
    /\ getitem (Samples.env_post (Some Samples.arn0) 200) credentials
         (lit "TELEGRAM_TOKEN") = Returns token
    /\ getitem (Samples.env_post (Some Samples.arn0) 200) credentials
         (lit "TELEGRAM_CHAT_ID") = Returns chat_id
    /\ lit "https://api.telegram.org/bot123:abc/sendMessage"
       = lit "https://api.telegram.org/bot"
         ++ format_value (Samples.env_post (Some Samples.arn0) 200) token
         ++ lit "/sendMessage"
    /\ telegram_payload (JInt 42) (lit "OP-1 found")
       = telegram_payload chat_id (lit "OP-1 found")
    /\ 10%Z = 10%Z.
Proof.
  apply (@send_notification_posts_only_with_credentials
           (Samples.env_post (Some Samples.arn0) 200) (lit "OP-1 found")
           (lit "https://api.telegram.org/bot123:abc/sendMessage")
           (telegram_payload (JInt 42) (lit "OP-1 found")) 10%Z).
  cbn. right. right. right. left. reflexivity.
Defined.

(** X12: when the POST itself raises (a timeout, a connection error) or is
    answered with an error status, the call returns the failure string
    with the exception's text, logs it at ERROR level, and has made that
    one POST only: a failed delivery is not tried again. *)
Theorem send_notification_delivery_failure env message arn secret_string credentials
        token chat_id e :
  boto3_client env (lit "secretsmanager") = Returns tt ->
  SECRETS_ARN env = Some arn ->
  truthy arn = true ->
  get_secret_value env arn = Returns (Some secret_string) ->
  json_loads env secret_string = Returns credentials ->
  getitem env credentials (lit "TELEGRAM_TOKEN") = Returns token ->
  getitem env credentials (lit "TELEGRAM_CHAT_ID") = Returns chat_id ->
  requests_post env (telegram_url_of env token) (telegram_payload chat_id message) 10
  = Raises e
  \/ (exists response,
        requests_post env (telegram_url_of env token)
          (telegram_payload chat_id message) 10 = Returns response
        /\ raise_for_status response = Raises e) ->
  let run := send_notification env message in
  let failure := CROSS ++ lit " Error sending notification: " ++ exn_str e in
  result_of run = Returns failure
  /\ In (Log ERROR failure) (trace_of run)
  /\ filter is_post (trace_of run)
     = [HttpPost (telegram_url_of env token) (telegram_payload chat_id message) 10].
Proof.
  intros Hclient Harn Htruthy Hsecret Hjson Htoken Hchat Hfail. cbv zeta.
  rewrite (@send_notification_with_credentials env message _ _ _ Hclient Harn Htruthy Hsecret Hjson).
  rewrite Htoken, Hchat. cbv zeta.
  destruct Hfail as [Hpost | [response [Hpost Hstatus]]]; rewrite Hpost;
    [|rewrite Hstatus].
  all: split; [reflexivity|]; split; [|reflexivity].
  all: cbn [app trace_of fst]; do 4 right; left; reflexivity.
Qed.

Lemma send_notification_delivery_failure_witness :
  result_of (send_notification MoreSamples.env_post_timeout (lit "OP-1 found"))
  = Returns (CROSS ++ lit " Error sending notification: "
             ++ lit "Read timed out. (read timeout=10)")
  /\ result_of (send_notification (Samples.env_post (Some Samples.arn0) 404)
                  (lit "OP-1 found"))
     = Returns (CROSS ++ lit " Error sending notification: "
                ++ lit "404 Client Error:  for url: " ++ Samples.url0).
Proof.
  split.
  - apply (@send_notification_delivery_failure MoreSamples.env_post_timeout
             (lit "OP-1 found") Samples.arn0 (lit "{...}") Samples.credentials
             (JStr (lit "123:abc")) (JInt 42) MoreSamples.timeout_error
             eq_refl eq_refl eq_refl eq_refl eq_refl eq_refl eq_refl).
    left. reflexivity.
  - apply (@send_notification_delivery_failure (Samples.env_post (Some Samples.arn0) 404)
             (lit "OP-1 found") Samples.arn0 (lit "{...}") Samples.credentials
             (JStr (lit "123:abc")) (JInt 42)
             (Exn HTTPError (lit "404 Client Error:  for url: " ++ Samples.url0))
             eq_refl eq_refl eq_refl eq_refl eq_refl eq_refl eq_refl).
    right. exists (Samples.response_with 404 ""). split; reflexivity.
Defined.

(** X13: [send_notification] writes an ERROR log line exactly when it
    returns a failure built from a caught exception, and that line is the
    returned string; the confirmation and the failure for a missing
    [SECRETS_ARN] are returned without any ERROR line. *)
Theorem send_notification_error_log env message :
  forall s,
    result_of (send_notification env message) = Returns s ->
    filter is_error_log (trace_of (send_notification env message))
    = if str_eqb s SENT_MSG || str_eqb s NO_ARN_MSG then [] else [Log ERROR s].
Proof.
  notify_paths; intros s H; injection H as <-; reflexivity.
Qed.

Lemma send_notification_error_log_witness :
  filter is_error_log
    (trace_of (send_notification MoreSamples.env_post_timeout (lit "OP-1 found")))
  = [Log ERROR (CROSS ++ lit " Error sending notification: "
                ++ lit "Read timed out. (read timeout=10)")]
  /\ filter is_error_log
       (trace_of (send_notification (Samples.env_post None 200) (lit "OP-1 found")))
     = [].
Proof.
  split.
  - exact (@send_notification_error_log MoreSamples.env_post_timeout (lit "OP-1 found")
             (CROSS ++ lit " Error sending notification: "
              ++ lit "Read timed out. (read timeout=10)") eq_refl).
  - exact (@send_notification_error_log (Samples.env_post None 200) (lit "OP-1 found")
             NO_ARN_MSG eq_refl).
Defined.

(* ================================================================== *)
(** * Further properties of lambda_handler *)
(* ================================================================== *)

(** The controller's trace, spelled out: its own events, then the events
    of the one call of [send_notification]. *)
Lemma lambda_handler_trace w event context :
  let failed e :=
    [Log ERROR (CROSS ++ lit " Error running OP-1 finder agent: " ++ exn_str e)]
    ++ trace_of (send_notification (notify_env w) (FAILED_MSG e)) in
  trace_of (lambda_handler w event context)
  = Log INFO ([127929%N] ++ lit " Starting OP-1 finder agent...")
    :: match BedrockModel_new w with
       | Raises e => failed e
       | Returns _ =>
           match Agent_new w with
           | Raises e => failed e
           | Returns _ =>
               Log INFO ([129302%N] ++ lit " Invoking agent to search for OP-1 deals...")
               :: AgentSession
               :: match agent_call w with
                  | Raises e => failed e
                  | Returns result =>
                      [Log INFO ([9989%N] ++ lit " Agent completed successfully");
                       Log INFO ([128202%N] ++ lit " Result: " ++ result)]
                      ++ trace_of (send_notification (notify_env w) COMPLETED_MSG)
                  end
           end
       end.
Proof.
  cbv zeta. unfold lambda_handler. cbv zeta.
  destruct (BedrockModel_new w) as [[]|e1]; [destruct (Agent_new w) as [[]|e2];
    [destruct (agent_call w) as [result|e3]|]|].
  - destruct (send_notification_returns (notify_env w) COMPLETED_MSG) as [s Hs].
    run_step. rewrite Hs. run_step. rewrite !app_nil_r. reflexivity.
  - destruct (send_notification_returns (notify_env w) (FAILED_MSG e3)) as [s Hs].
    run_step. rewrite Hs. run_step. rewrite !app_nil_r. reflexivity.
  - destruct (send_notification_returns (notify_env w) (FAILED_MSG e2)) as [s Hs].
    run_step. rewrite Hs. run_step. rewrite !app_nil_r. reflexivity.
  - destruct (send_notification_returns (notify_env w) (FAILED_MSG e1)) as [s Hs].
    run_step. rewrite Hs. run_step. rewrite !app_nil_r. reflexivity.
Qed.

Lemma send_notification_no_agent env message :
  filter is_agent_session (trace_of (send_notification env message)) = [].
Proof. notify_paths; reflexivity. Qed.

Lemma send_notification_offline env message :
  arn_configured env = false ->
  filter is_network_call (trace_of (send_notification env message)) = [].
Proof.
  intros H. unfold arn_configured in H. revert H. notify_paths.
  all: intros H; try discriminate H; reflexivity.
Qed.

(** X14: the controller starts the agent session at most once per run:
    once when the model client and the agent were built, never when
    building either of them raised. *)
Theorem lambda_handler_runs_agent_once w event context :
  length (filter is_agent_session (trace_of (lambda_handler w event context)))
  = match BedrockModel_new w, Agent_new w with
    | Returns _, Returns _ => 1%nat
    | _, _ => 0%nat
    end.
Proof.
  rewrite lambda_handler_trace. cbv zeta.
  destruct (BedrockModel_new w) as [[]|e1]; [destruct (Agent_new w) as [[]|e2];
    [destruct (agent_call w) as [result|e3]|]|].
  all: cbn [filter is_agent_session app];
    rewrite ?filter_app, ?send_notification_no_agent; reflexivity.
Qed.

(** X15: when the credentials resolve, the one POST of a run carries the
    status of the run as its text: the "completed" message when the
    orchestrator returned, and the "error" message with [str(e)] when it
    raised [e]. The controller itself makes no other POST. *)
Theorem lambda_handler_posts_status w event context arn secret_string credentials
        token chat_id :
  boto3_client (notify_env w) (lit "secretsmanager") = Returns tt ->
  SECRETS_ARN (notify_env w) = Some arn ->
  truthy arn = true ->
  get_secret_value (notify_env w) arn = Returns (Some secret_string) ->
  json_loads (notify_env w) secret_string = Returns credentials ->
  getitem (notify_env w) credentials (lit "TELEGRAM_TOKEN") = Returns token ->
  getitem (notify_env w) credentials (lit "TELEGRAM_CHAT_ID") = Returns chat_id ->
  let status_text :=
    match orchestrator w with
    | Returns _ => COMPLETED_MSG
    | Raises e => [128680%N] ++ lit " OP-1 Finder Error: " ++ exn_str e
    end in
  filter is_post (trace_of (lambda_handler w event context))
  = [HttpPost (telegram_url_of (notify_env w) token)
       (JDict [(lit "chat_id", chat_id);
               (lit "text", JStr status_text);
               (lit "parse_mode", JStr (lit "Markdown"));
               (lit "disable_web_page_preview", JBool false)]) 10].
Proof.
  intros Hclient Harn Htruthy Hsecret Hjson Htoken Hchat. cbv zeta.
  assert (Hsend : forall message,
             filter is_post (trace_of (send_notification (notify_env w) message))
             = [HttpPost (telegram_url_of (notify_env w) token)
                  (telegram_payload chat_id message) 10]).
  { intros message.
    rewrite (@send_notification_with_credentials (notify_env w) message _ _ _
               Hclient Harn Htruthy Hsecret Hjson).
    rewrite Htoken, Hchat. cbv zeta.
    destruct (requests_post _ _ _ _) as [response|e];
      [destruct (raise_for_status response) as [[]|e]|]; reflexivity. }
  rewrite lambda_handler_trace. cbv zeta. unfold orchestrator.
  destruct (BedrockModel_new w) as [[]|e1]; [destruct (Agent_new w) as [[]|e2];
    [destruct (agent_call w) as [result|e3]|]|].
  all: cbn [filter is_post app]; rewrite ?filter_app, Hsend; reflexivity.
Qed.

Lemma lambda_handler_posts_status_witness :
  filter is_post
    (trace_of (lambda_handler
                 (Samples.world (Raises Samples.runtime_error)
                    (Samples.env_post (Some Samples.arn0) 200))
                 JNull JNull))
  = [HttpPost (lit "https://api.telegram.org/bot123:abc/sendMessage")
       (JDict [(lit "chat_id", JInt 42);
               (lit "text", JStr ([128680%N] ++ lit " OP-1 Finder Error: "
                                  ++ lit "model runtime failure"));
               (lit "parse_mode", JStr (lit "Markdown"));
               (lit "disable_web_page_preview", JBool false)]) 10].
Proof.
  apply (@lambda_handler_posts_status
           (Samples.world (Raises Samples.runtime_error)
              (Samples.env_post (Some Samples.arn0) 200))
           JNull JNull Samples.arn0 (lit "{...}") Samples.credentials
           (JStr (lit "123:abc")) (JInt 42)
           eq_refl eq_refl eq_refl eq_refl eq_refl eq_refl eq_refl).
Defined.

(** X16: without a configured secret reference a whole run of the
    controller makes no network call of its own (no secret fetch, no GET,
    no POST): only the agent session is left, and the status payload is
    returned all the same. *)
Theorem lambda_handler_without_secret_reference w event context :
  arn_configured (notify_env w) = false ->
  filter is_network_call (trace_of (lambda_handler w event context)) = []
  /\ exists payload,
       result_of (lambda_handler w event context) = Returns payload
       /\ statusCode payload
          = match orchestrator w with Returns _ => 200%Z | Raises _ => 500%Z end.
Proof.
  intros Harn. split.
  - rewrite lambda_handler_trace. cbv zeta.
    destruct (BedrockModel_new w) as [[]|e1]; [destruct (Agent_new w) as [[]|e2];
      [destruct (agent_call w) as [result|e3]|]|].
    all: cbn [filter is_network_call app];
      rewrite ?filter_app, send_notification_offline by exact Harn; reflexivity.
  - pose proof (lambda_handler_run w event context) as H. cbv zeta in H.
    destruct (orchestrator w) as [result|e]; destruct H as [H _];
      eexists; split; [exact H | reflexivity | exact H | reflexivity].
Qed.

Lemma lambda_handler_without_secret_reference_witness :
  filter is_network_call
    (trace_of (lambda_handler
                 (Samples.world (Returns (lit "no match")) (Samples.env_post None 200))
                 JNull JNull))
  = []
  /\ exists payload,
       result_of (lambda_handler
                    (Samples.world (Returns (lit "no match")) (Samples.env_post None 200))
                    JNull JNull)
       = Returns payload
       /\ statusCode payload
          = match orchestrator (Samples.world (Returns (lit "no match"))
                                  (Samples.env_post None 200)) with
            | Returns _ => 200%Z
            | Raises _ => 500%Z
            end.
Proof.
  apply (@lambda_handler_without_secret_reference
           (Samples.world (Returns (lit "no match")) (Samples.env_post None 200))
           JNull JNull eq_refl).
Defined.
